(** * AI Study Buddy: the quiz pipeline of [project.py]

    A shallow embedding of the helper functions ([clean_text],
    [normalize_answer], [calculate_score], [extract_json], [read_pdf],
    [call_gemini_api], the cells of [save_text_as_pdf]) and of the chat
    page and the quiz page of [main], followed by the properties of the
    quiz generation and grading pipeline and of the code around it.

    Text.  A Python [str] is modelled by a Rocq [string]; the character
    with code [n] stands for the code point U+00[n], so the model covers the
    texts whose code points lie below 256.

    Exceptions.  Code that can raise returns a [result]; a function that has
    no raising path is an ordinary total function. *)

From Stdlib Require Import String Ascii List Arith Lia Bool ZArith.
From Stdlib Require Import DecimalString.
From Stdlib Require Import PrimInt63 PrimFloat.
Import ListNotations.
Local Open Scope string_scope.
Local Open Scope list_scope.
Local Open Scope nat_scope.

(* ================================================================== *)
(** * Characters and the string methods the program calls *)
(* ================================================================== *)

Module PyStr.

(** [str.isspace] on one character, which is also the class [\s] of [re]
    for a [str] pattern: TAB..CR, FS..US, SPACE, NEL and NBSP. *)
Definition isspace (c : ascii) : bool :=
  let n := nat_of_ascii c in
  ((9 <=? n) && (n <=? 13)) || ((28 <=? n) && (n <=? 32))
  || (n =? 133) || (n =? 160).

Fixpoint lstrip (s : string) : string :=
  match s with
  | EmptyString => EmptyString
  | String c s' => if isspace c then lstrip s' else s
  end.

Fixpoint rstrip (s : string) : string :=
  match s with
  | EmptyString => EmptyString
  | String c s' =>
      match rstrip s' with
      | EmptyString => if isspace c then EmptyString else String c EmptyString
      | r => String c r
      end
  end.

(** [s.strip()] *)
Definition strip (s : string) : string := rstrip (lstrip s).

(** [s.replace(old, "")] for a one-character [old]. *)
Fixpoint remove_char (old : ascii) (s : string) : string :=
  match s with
  | EmptyString => EmptyString
  | String c s' =>
      if Ascii.eqb c old then remove_char old s'
      else String c (remove_char old s')
  end.

(** [re.sub(r'\s+', ' ', s)]: every maximal run of whitespace becomes one
    space.  [in_run] says that the previous character was whitespace, so
    that the run it belongs to has been replaced already. *)
Fixpoint sub_ws_run (in_run : bool) (s : string) : string :=
  match s with
  | EmptyString => EmptyString
  | String c s' =>
      if isspace c
      then (if in_run then sub_ws_run true s'
            else String " " (sub_ws_run true s'))
      else String c (sub_ws_run false s')
  end.

Definition re_sub_ws (s : string) : string := sub_ws_run false s.

(** The class [[A-Da-d]]. *)
Definition is_AD (c : ascii) : bool :=
  let n := nat_of_ascii c in
  ((65 <=? n) && (n <=? 68)) || ((97 <=? n) && (n <=? 100)).

(** [re.match(r'([A-Da-d])', s)], giving group 1. *)
Definition re_match_AD (s : string) : option ascii :=
  match s with
  | String c _ => if is_AD c then Some c else None
  | EmptyString => None
  end.

(** [str.upper] on one ASCII character. *)
Definition upper (c : ascii) : ascii :=
  let n := nat_of_ascii c in
  if (97 <=? n) && (n <=? 122) then ascii_of_nat (n - 32) else c.

End PyStr.

(* ================================================================== *)
(** * Helper functions (project.py, lines 14-26) *)
(* ================================================================== *)

(** [def clean_text(text): return re.sub(r'\s+', ' ', text.strip())] *)
Definition clean_text (text : string) : string :=
  PyStr.re_sub_ws (PyStr.strip text).

(** [def normalize_answer(answer)]: the guard [if not answer], then the
    match of [[A-Da-d]] at the start of the stripped text. *)
Definition normalize_answer (answer : string) : string :=
  match answer with
  | EmptyString => EmptyString
  | _ =>
      match PyStr.re_match_AD (PyStr.strip answer) with
      | Some c => String (PyStr.upper c) EmptyString
      | None => EmptyString
      end
  end.

(** [sum(ua == ca for ua, ca in zip(user_answers, correct_answers))];
    [zip] is [combine]: it stops at the end of the shorter list. *)
Definition calculate_score (user_answers correct_answers : list string) : nat :=
  list_sum (map (fun p : string * string =>
                   if String.eqb (fst p) (snd p) then 1 else 0)
                (combine user_answers correct_answers)).


(* ================================================================== *)
(** * JSON values and [json.loads] *)
(* ================================================================== *)

(** The values [json.loads] builds: [None], [bool], [int], [float], [str],
    [list] and [dict].  A [dict] keeps its keys in insertion order, which is
    what [list(a.values())[0]] observes, so it is an association list
    without repeated keys.  A [float] is kept as the lexeme it was read
    from: binary64 arithmetic is outside the model. *)
#[warnings="-register-all"] Inductive json : Type :=
| JNull
| JBool (b : bool)
| JInt (z : Z)
| JFloat (lexeme : string)
| JStr (s : string)
| JArr (items : list json)
| JObj (members : list (string * json)).

Module Json.

Definition dquote : ascii := "034"%char.
Definition backslash : ascii := "\"%char.

(** [d[k] = v] on an insertion-ordered dict. *)
Fixpoint dict_set (k : string) (v : json) (d : list (string * json))
  : list (string * json) :=
  match d with
  | [] => [(k, v)]
  | (k', v') :: d' =>
      if String.eqb k k' then (k', v) :: d' else (k', v') :: dict_set k v d'
  end.

Inductive token : Type :=
| TLBracket | TRBracket | TLBrace | TRBrace | TComma | TColon
| TLit (v : json).

(** The whitespace of the JSON grammar. *)
Definition is_ws (c : ascii) : bool :=
  let n := nat_of_ascii c in
  (n =? 32) || (n =? 9) || (n =? 10) || (n =? 13).

Definition is_digit (c : ascii) : bool :=
  let n := nat_of_ascii c in (48 <=? n) && (n <=? 57).

Definition digit_val (c : ascii) : Z := Z.of_nat (nat_of_ascii c - 48).

Fixpoint span_digits (s : string) : string * string :=
  match s with
  | String c r =>
      if is_digit c then let (ds, r') := span_digits r in (String c ds, r')
      else (EmptyString, s)
  | EmptyString => (EmptyString, EmptyString)
  end.

Fixpoint digits_to_Z (acc : Z) (ds : string) : Z :=
  match ds with
  | EmptyString => acc
  | String c r => digits_to_Z (10 * acc + digit_val c)%Z r
  end.

Fixpoint strip_prefix (p s : string) : option string :=
  match p, s with
  | EmptyString, _ => Some s
  | String a p', String b s' =>
      if Ascii.eqb a b then strip_prefix p' s' else None
  | String _ _, EmptyString => None
  end.

(** The fraction [(\.\d+)?] of a number. *)
Definition scan_frac (s : string) : string * string :=
  match s with
  | String c r =>
      if Ascii.eqb c "." then
        match span_digits r with
        | (EmptyString, _) => (EmptyString, s)
        | (ds, r') => (String c ds, r')
        end
      else (EmptyString, s)
  | EmptyString => (EmptyString, s)
  end.

(** The exponent [([eE][-+]?\d+)?] of a number. *)
Definition scan_exp (s : string) : string * string :=
  match s with
  | String e r =>
      if Ascii.eqb e "e" || Ascii.eqb e "E" then
        let (sign, r1) :=
          match r with
          | String g r1 =>
              if Ascii.eqb g "+" || Ascii.eqb g "-"
              then (String g EmptyString, r1) else (EmptyString, r)
          | EmptyString => (EmptyString, r)
          end in
        match span_digits r1 with
        | (EmptyString, _) => (EmptyString, s)
        | (ds, r2) => (String e (sign ++ ds), r2)
        end
      else (EmptyString, s)
  | EmptyString => (EmptyString, s)
  end.

(** The integer part, an optional minus sign and then either [0] or a
    nonzero digit and more digits: sign, digits and the rest. *)
Definition scan_int (s : string) : option (bool * string * string) :=
  let (neg, s1) :=
    match s with
    | String c r => if Ascii.eqb c "-" then (true, r) else (false, s)
    | EmptyString => (false, s)
    end in
  match s1 with
  | String c r =>
      if Ascii.eqb c "0" then Some (neg, String c EmptyString, r)
      else if is_digit c
      then let (ds, r') := span_digits r in Some (neg, String c ds, r')
      else None
  | EmptyString => None
  end.

(** A number: an [int] when it has neither fraction nor exponent, a
    [float] otherwise. *)
Definition scan_number (s : string) : option (json * string) :=
  match scan_int s with
  | None => None
  | Some (neg, ds, r) =>
      let (frac, r1) := scan_frac r in
      let (exp, r2) := scan_exp r1 in
      match frac, exp with
      | EmptyString, EmptyString =>
          let z := digits_to_Z 0 ds in
          Some (JInt (if neg then (- z)%Z else z), r2)
      | _, _ =>
          Some (JFloat ((if neg then "-" else "") ++ ds ++ frac ++ exp)%string, r2)
      end
  end.

Definition hex_val (c : ascii) : option nat :=
  let n := nat_of_ascii c in
  if (48 <=? n) && (n <=? 57) then Some (n - 48)
  else if (65 <=? n) && (n <=? 70) then Some (n - 55)
  else if (97 <=? n) && (n <=? 102) then Some (n - 87)
  else None.

(** The code point of [\uXXXX], when it lies in the modelled range. *)
Definition unicode_escape (h1 h2 h3 h4 : ascii) : option ascii :=
  match hex_val h1, hex_val h2, hex_val h3, hex_val h4 with
  | Some a, Some b, Some c, Some d =>
      if (a =? 0) && (b =? 0) then Some (ascii_of_nat (16 * c + d)) else None
  | _, _, _, _ => None
  end.

Definition simple_escape (e : ascii) : option ascii :=
  if Ascii.eqb e dquote then Some dquote
  else if Ascii.eqb e backslash then Some backslash
  else if Ascii.eqb e "/" then Some "/"%char
  else if Ascii.eqb e "b" then Some "008"%char
  else if Ascii.eqb e "f" then Some "012"%char
  else if Ascii.eqb e "n" then Some "010"%char
  else if Ascii.eqb e "r" then Some "013"%char
  else if Ascii.eqb e "t" then Some "009"%char
  else None.

(** The body of a string, after its opening quote, in strict mode: a raw
    control character is refused. *)
Fixpoint scan_string (s : string) : option (string * string) :=
  match s with
  | EmptyString => None
  | String c r =>
      if Ascii.eqb c dquote then Some (EmptyString, r)
      else if Ascii.eqb c backslash then
        match r with
        | String e r' =>
            if Ascii.eqb e "u" then
              match r' with
              | String h1 (String h2 (String h3 (String h4 r''))) =>
                  match unicode_escape h1 h2 h3 h4, scan_string r'' with
                  | Some x, Some (body, rest) => Some (String x body, rest)
                  | _, _ => None
                  end
              | _ => None
              end
            else
              match simple_escape e, scan_string r' with
              | Some x, Some (body, rest) => Some (String x body, rest)
              | _, _ => None
              end
        | EmptyString => None
        end
      else if nat_of_ascii c <? 32 then None
      else
        match scan_string r with
        | Some (body, rest) => Some (String c body, rest)
        | None => None
        end
  end.

(** The scalars other than strings, tried in the order of the scanner. *)
Definition scan_scalar (s : string) : option (json * string) :=
  match strip_prefix "null" s with
  | Some r => Some (JNull, r)
  | None =>
  match strip_prefix "true" s with
  | Some r => Some (JBool true, r)
  | None =>
  match strip_prefix "false" s with
  | Some r => Some (JBool false, r)
  | None =>
  match scan_number s with
  | Some vr => Some vr
  | None =>
  match strip_prefix "NaN" s with
  | Some r => Some (JFloat "NaN", r)
  | None =>
  match strip_prefix "Infinity" s with
  | Some r => Some (JFloat "Infinity", r)
  | None =>
  match strip_prefix "-Infinity" s with
  | Some r => Some (JFloat "-Infinity", r)
  | None => None
  end end end end end end end.

Definition cons_token (t : token) (ts : option (list token))
  : option (list token) :=
  match ts with
  | Some l => Some (t :: l)
  | None => None
  end.

Fixpoint lex (fuel : nat) (s : string) : option (list token) :=
  match fuel with
  | 0 => None
  | S fuel' =>
      match s with
      | EmptyString => Some []
      | String c r =>
          if is_ws c then lex fuel' r
          else if Ascii.eqb c "[" then cons_token TLBracket (lex fuel' r)
          else if Ascii.eqb c "]" then cons_token TRBracket (lex fuel' r)
          else if Ascii.eqb c "{" then cons_token TLBrace (lex fuel' r)
          else if Ascii.eqb c "}" then cons_token TRBrace (lex fuel' r)
          else if Ascii.eqb c "," then cons_token TComma (lex fuel' r)
          else if Ascii.eqb c ":" then cons_token TColon (lex fuel' r)
          else if Ascii.eqb c dquote then
            match scan_string r with
            | Some (body, r') => cons_token (TLit (JStr body)) (lex fuel' r')
            | None => None
            end
          else
            match scan_scalar s with
            | Some (v, r') => cons_token (TLit v) (lex fuel' r')
            | None => None
            end
      end
  end.

Fixpoint parse_value (fuel : nat) (ts : list token)
  : option (json * list token) :=
  match fuel with
  | 0 => None
  | S fuel' =>
      match ts with
      | TLit v :: r => Some (v, r)
      | TLBracket :: TRBracket :: r => Some (JArr [], r)
      | TLBracket :: r => parse_array fuel' r []
      | TLBrace :: TRBrace :: r => Some (JObj [], r)
      | TLBrace :: r => parse_object fuel' r []
      | _ => None
      end
  end
with parse_array (fuel : nat) (ts : list token) (acc : list json)
  : option (json * list token) :=
  match fuel with
  | 0 => None
  | S fuel' =>
      match parse_value fuel' ts with
      | Some (v, TComma :: r) => parse_array fuel' r (acc ++ [v])
      | Some (v, TRBracket :: r) => Some (JArr (acc ++ [v]), r)
      | _ => None
      end
  end
with parse_object (fuel : nat) (ts : list token) (acc : list (string * json))
  : option (json * list token) :=
  match fuel with
  | 0 => None
  | S fuel' =>
      match ts with
      | TLit (JStr k) :: TColon :: r =>
          match parse_value fuel' r with
          | Some (v, TComma :: r') => parse_object fuel' r' (dict_set k v acc)
          | Some (v, TRBrace :: r') => Some (JObj (dict_set k v acc), r')
          | _ => None
          end
      | _ => None
      end
  end.

(** [json.loads(s)]; [None] stands for the exception it raises
    ([JSONDecodeError]).  The fuel is enough: what the lexer and the parser
    find with any fuel, [loads] finds ([loads_fuel_enough] below).  Not
    modelled: escapes [\uXXXX] above U+00FF (refused here, accepted by
    Python) and the interpreter's limits on nesting depth and on the number
    of digits of an [int]. *)
Definition loads (s : string) : option json :=
  match lex (S (String.length s)) s with
  | Some ts =>
      match parse_value (2 * List.length ts + 2) ts with
      | Some (v, []) => Some v
      | _ => None
      end
  | None => None
  end.

(** Test texts are written with ['] for the quotation mark of JSON. *)
Fixpoint text (s : string) : string :=
  match s with
  | EmptyString => EmptyString
  | String c r => String (if Ascii.eqb c "'" then dquote else c) (text r)
  end.

End Json.

(* ================================================================== *)
(** * Python built-ins the quiz page calls *)
(* ================================================================== *)

Module Py.

Inductive exn : Type := AttributeError | IndexError | KeyError | TypeError.

Inductive result (A : Type) : Type :=
| Ok (a : A)
| Raise (e : exn).
Arguments Ok {A} a.
Arguments Raise {A} e.

(** A list comprehension whose element expression can raise: elements are
    evaluated from left to right and the first exception ends it. *)
Fixpoint comprehension {A B : Type} (f : A -> result B) (l : list A)
  : result (list B) :=
  match l with
  | [] => Ok []
  | a :: l' =>
      match f a with
      | Raise e => Raise e
      | Ok b =>
          match comprehension f l' with
          | Raise e => Raise e
          | Ok bs => Ok (b :: bs)
          end
      end
  end.

(** [isinstance(a, dict)] *)
Definition is_dict (a : json) : bool :=
  match a with
  | JObj _ => true
  | _ => false
  end.

(** [list(a.values())[0]]: only a [dict] has [values], and an empty one
    has no element 0. *)
Definition first_value (a : json) : result json :=
  match a with
  | JObj ((_, v) :: _) => Ok v
  | JObj [] => Raise IndexError
  | _ => Raise AttributeError
  end.

Fixpoint lookup (k : string) (d : list (string * json)) : option json :=
  match d with
  | [] => None
  | (k', v) :: d' => if String.eqb k k' then Some v else lookup k d'
  end.

(** [q[k]] for a text key [k]. *)
Definition getitem (q : json) (k : string) : result json :=
  match q with
  | JObj d =>
      match lookup k d with
      | Some v => Ok v
      | None => Raise KeyError
      end
  | _ => Raise TypeError
  end.

Fixpoint contains (c : ascii) (s : string) : bool :=
  match s with
  | EmptyString => false
  | String d r => Ascii.eqb c d || contains c r
  end.

Definition hex_digit (n : nat) : ascii :=
  if n <? 10 then ascii_of_nat (48 + n) else ascii_of_nat (87 + n).

(** Printable characters of the modelled range: not the C0 and C1
    controls, DEL, NBSP and the soft hyphen. *)
Definition repr_keeps (n : nat) : bool :=
  if n <? 127 then 32 <=? n
  else (161 <=? n) && negb (n =? 173).

Fixpoint repr_chars (quote : ascii) (s : string) : string :=
  match s with
  | EmptyString => EmptyString
  | String c r =>
      let n := nat_of_ascii c in
      let rest := repr_chars quote r in
      if Ascii.eqb c quote || Ascii.eqb c Json.backslash
      then String Json.backslash (String c rest)
      else if n =? 9 then String Json.backslash (String "t" rest)
      else if n =? 10 then String Json.backslash (String "n" rest)
      else if n =? 13 then String Json.backslash (String "r" rest)
      else if repr_keeps n then String c rest
      else String Json.backslash
             (String "x" (String (hex_digit (n / 16))
                                 (String (hex_digit (n mod 16)) rest)))
  end.

(** [repr(s)] for a [str]: single quotes, unless the text has a single
    quote and no double quote. *)
Definition repr_str (s : string) : string :=
  let quote :=
    if contains "'" s && negb (contains Json.dquote s)
    then Json.dquote else "'"%char in
  String quote (repr_chars quote s ++ String quote EmptyString).

(** [repr(x)] for a [float] read from [lexeme].  The three names are
    exact.  For a finite lexeme Python prints the shortest decimal that
    reads back as the same binary64 number; the lexeme stands for it. *)
Definition repr_float (lexeme : string) : string :=
  if String.eqb lexeme "NaN" then "nan"
  else if String.eqb lexeme "Infinity" then "inf"
  else if String.eqb lexeme "-Infinity" then "-inf"
  else lexeme.

Fixpoint join (sep : string) (l : list string) : string :=
  match l with
  | [] => EmptyString
  | [x] => x
  | x :: l' => (x ++ sep ++ join sep l')%string
  end.

Fixpoint repr (v : json) : string :=
  match v with
  | JNull => "None"
  | JBool true => "True"
  | JBool false => "False"
  | JInt z => NilZero.string_of_int (Z.to_int z)
  | JFloat lexeme => repr_float lexeme
  | JStr s => repr_str s
  | JArr items => ("[" ++ join ", " (map repr items) ++ "]")%string
  | JObj members =>
      ("{" ++ join ", " (map (fun kv => match kv with
                                       | (k, x) => repr_str k ++ ": " ++ repr x
                                       end) members) ++ "}")%string
  end.

(** [str(v)] *)
Definition str (v : json) : string :=
  match v with
  | JStr s => s
  | _ => repr v
  end.

End Py.
Import Py.

(* ================================================================== *)
(** * The structured extractor (project.py, lines 64-71) *)
(* ================================================================== *)

(** The text that follows the first ['['] of [s]. *)
Fixpoint after_first_lbracket (s : string) : option string :=
  match s with
  | EmptyString => None
  | String c r => if Ascii.eqb c "[" then Some r else after_first_lbracket r
  end.

(** The longest prefix of [s] that ends with [']']. *)
Fixpoint upto_last_rbracket (s : string) : option string :=
  match s with
  | EmptyString => None
  | String c r =>
      match upto_last_rbracket r with
      | Some t => Some (String c t)
      | None => if Ascii.eqb c "]" then Some (String c EmptyString) else None
      end
  end.

(** [re.search(r'\[.*\]', s, flags=re.DOTALL)], giving group 0.  The search
    takes the leftmost start, which is the first ['['] (if no [']'] follows
    it, none follows a later one either), and [.*] is greedy and crosses
    newlines, so the match runs to the last [']'] of the text. *)
Definition re_search_array (s : string) : option string :=
  match after_first_lbracket s with
  | None => None
  | Some r =>
      match upto_last_rbracket r with
      | Some t => Some (String "[" t)
      | None => None
      end
  end.

(** [def extract_json(ai_response)].  The [except] clause turns an exception
    of [json.loads] into [None].  The matched text starts with ['['], so
    what [json.loads] returns for it is a list ([loads_bracket_is_list]
    below); the result is typed as the list of its items. *)
Definition extract_json (ai_response : string) : option (list json) :=
  match re_search_array ai_response with
  | Some matched =>
      match Json.loads matched with
      | Some (JArr items) => Some items
      | _ => None
      end
  | None => None
  end.

(* ================================================================== *)
(** * The quiz page of [main] (project.py, lines 174-261) *)
(* ================================================================== *)

(** [st.session_state.quiz_data] and [st.session_state.user_answers], as
    lines 179-181 initialise them, for answers that are texts: the empty
    text they start with, then the option texts the radio widgets return.
    The session with answers of any kind, as the widgets return them for
    options that are not texts, is [Objects.session_state] below. *)
Record session_state : Type := {
  quiz_data : option (list json);
  user_answers : list string
}.

Definition initial_session : session_state :=
  {| quiz_data := None; user_answers := [] |}.

(** Truth value of what [extract_json] returned: [None] and the empty list
    are false. *)
Definition truthy (x : option (list json)) : bool :=
  match x with
  | Some (_ :: _) => true
  | _ => false
  end.

(** The states of the session that the page can tell apart: the questions
    are rendered, and can be submitted, when [quiz_data] is true. *)
Inductive state : Type := Empty | Ready.

Definition state_of (s : session_state) : state :=
  if truthy (quiz_data s) then Ready else Empty.

(** ** Generation (lines 199-206) *)

Inductive generation : Type :=
| QuizCommitted
| QuizParseFailed.  (* st.error("Failed to parse AI response. ...") *)

(** The body of [if generate_clicked and quiz_text.strip():], given the
    text [call_gemini_api] returned. *)
Definition generate_quiz (ai_response : string) (s : session_state)
  : session_state * generation :=
  match extract_json ai_response with
  | Some (q :: qs) =>
      ({| quiz_data := Some (q :: qs);
          user_answers := repeat EmptyString (List.length (q :: qs)) |},
       QuizCommitted)
  | falsy =>
      ({| quiz_data := falsy; user_answers := user_answers s |},
       QuizParseFailed)
  end.

(** ** Grading (lines 223-251) *)

(** What one line of the results shows: [Correct ua] for
    "Correct! Your answer: ua", and [Wrong shown ca] for
    "Wrong! Your answer: shown, Correct: ca". *)
Inductive verdict : Type :=
| Correct (ua : string)
| Wrong (shown : string) (ca : string).

Record result_line : Type := {
  number : nat;          (* idx+1 *)
  question : string;     (* q['question'], formatted *)
  outcome : verdict
}.

(** [ua or 'No answer'] *)
Definition or_no_answer (ua : string) : string :=
  match ua with
  | EmptyString => "No answer"
  | _ => ua
  end.

(** The test [if ua == ca:] of line 243 and the two messages. *)
Definition classify (ua ca : string) : verdict :=
  if String.eqb ua ca then Correct ua else Wrong (or_no_answer ua) ca.

(** Lines 230-232. *)
Definition flatten_answers (correct_answers : list json)
  : result (list json) :=
  match correct_answers with
  | [] => Raise IndexError
  | first :: _ =>
      if is_dict first then comprehension first_value correct_answers
      else Ok correct_answers
  end.

(** Lines 234-235. *)
Definition normalize_key (correct_answers : list json) : list string :=
  map (fun a => normalize_answer
                  (PyStr.remove_char "." (PyStr.remove_char ")" (Py.str a))))
      correct_answers.

(** The loop of lines 242-248 from index [idx] on: the lines shown, and the
    exception that ended the loop, if any. *)
Fixpoint show_results (idx : nat) (rows : list (string * string * json))
  : list result_line * option exn :=
  match rows with
  | [] => ([], None)
  | (ua, ca, q) :: rows' =>
      match getitem q "question" with
      | Raise e => ([], Some e)
      | Ok text =>
          let (shown, e) := show_results (S idx) rows' in
          ({| number := S idx; question := Py.str text;
              outcome := classify ua ca |} :: shown, e)
      end
  end.

(** Lines 230-235 together: the letters of the answer key. *)
Definition key_letters (correct_answers : list json) : result (list string) :=
  match flatten_answers correct_answers with
  | Raise e => Raise e
  | Ok flat => Ok (normalize_key flat)
  end.

Inductive grading : Type :=
| AnswersParseFailed   (* st.error("Failed to parse AI answers. ...") *)
| Graded (shown : list result_line) (score total : nat)
| Crashed (shown : list result_line) (e : exn).

(** The body of [if st.button("Submit Quiz"):], given the text
    [call_gemini_api] returned, on a session whose answers are texts; on
    other answers line 237 can raise, see [Objects.submit_quiz].  The block
    reads the session and assigns nothing in it.  The button exists only in
    state [Ready]; with [quiz_data] at [None] the [zip] of line 242 would
    raise. *)
Definition submit_quiz (ai_answers : string) (s : session_state)
  : session_state * grading :=
  match extract_json ai_answers with
  | None | Some [] => (s, AnswersParseFailed)
  | Some correct_answers =>
      match key_letters correct_answers with
      | Raise e => (s, Crashed [] e)
      | Ok normalized_answers =>
          let user_answers' := map normalize_answer (user_answers s) in
          let score := calculate_score user_answers' normalized_answers in
          match quiz_data s with
          | None => (s, Crashed [] TypeError)
          | Some quiz =>
              match show_results 0 (combine (combine user_answers'
                                                     normalized_answers)
                                            quiz) with
              | (shown, Some e) => (s, Crashed shown e)
              | (shown, None) =>
                  (s, Graded shown score (List.length normalized_answers))
              end
          end
      end
  end.

(* ================================================================== *)
(** * What the specification says, in its own words *)
(* ================================================================== *)

(** The count of index-aligned equal pairs: the positions below the length
    of [us] at which [us] and [cs] hold the same letter. *)
Definition equal_positions (us cs : list string) : list nat :=
  filter (fun i => String.eqb (nth i us EmptyString) (nth i cs EmptyString))
         (seq 0 (List.length us)).

(** The shape the specification asks of an accepted question: an object
    with a [question] text and an [options] sequence of length 4. *)
Definition spec_valid_question (q : json) : bool :=
  match getitem q "question", getitem q "options" with
  | Ok (JStr _), Ok (JArr options) => List.length options =? 4
  | _, _ => false
  end.

(** The shape the specification asks of an accepted quiz: 5 such objects. *)
Definition spec_valid_quiz (quiz : list json) : bool :=
  (List.length quiz =? 5) && forallb spec_valid_question quiz.

(** The letter grades: each letter A-D, in either case, with the grade it
    stands for. *)
Definition letter_grades : list (ascii * string) :=
  [("A"%char, "A"); ("B"%char, "B"); ("C"%char, "C"); ("D"%char, "D");
   ("a"%char, "A"); ("b"%char, "B"); ("c"%char, "C"); ("d"%char, "D")].

(** The positions below [n] at which [us] and [cs] hold the same letter. *)
Definition equal_below (n : nat) (us cs : list string) : list nat :=
  filter (fun i => String.eqb (nth i us EmptyString) (nth i cs EmptyString))
         (seq 0 n).

Definition is_correct (v : verdict) : bool :=
  match v with
  | Correct _ => true
  | Wrong _ _ => false
  end.

(** ** Sample data *)

(** An object of the shape the generation prompt asks for. *)
Definition mcq (text : string) (options : list string) : json :=
  JObj [("question", JStr text); ("options", JArr (map JStr options))].

Definition two_questions : list json :=
  [mcq "Q1" ["A) w"; "B) x"; "C) y"; "D) z"];
   mcq "Q2" ["A) w"; "B) x"; "C) y"; "D) z"]].

Definition session_two : session_state :=
  {| quiz_data := Some two_questions; user_answers := ["A) w"; "B) x"] |}.

Definition session_one : session_state :=
  {| quiz_data := Some [mcq "Q" ["1) w"; "2) x"; "3) y"; "4) z"]];
     user_answers := ["1) w"] |}.

(** A mapping with the single key [k]. *)
Definition single_key (kv : string * json) : json := JObj [kv].

(** A mapping that has a first value. *)
Definition nonempty_dict (a : json) : Prop :=
  exists k v members, a = JObj ((k, v) :: members).


(* ================================================================== *)
(** * The rest of the program *)
(* ================================================================== *)

(** ** The generative client (lines 44-53) *)

(** [def call_gemini_api(prompt, client)], given what the call of
    [client.models.generate_content] did: [Some text] when it returned a
    response with that text, [None] when it raised, in which case the
    [except] clause reports the error and returns the empty text. *)
Definition call_gemini_api (backend : option string) : string :=
  match backend with
  | Some text => text
  | None => EmptyString
  end.

(** ** Reading and writing documents (lines 29-37 and 56-61) *)

(** [def read_pdf(file)], given for each page of the reader what
    [page.extract_text()] returned ([None] for a page without text):
    [text += page.extract_text() or ""]. *)
Definition read_pdf (pages : list (option string)) : string :=
  fold_left (fun text page =>
               (text ++ match page with
                        | Some t => t
                        | None => EmptyString
                        end)%string)
            pages EmptyString.

Definition newline : ascii := "010"%char.

(** [text.split("\n")] *)
Fixpoint split_newline (text : string) : list string :=
  match text with
  | EmptyString => [EmptyString]
  | String c r =>
      if Ascii.eqb c newline then EmptyString :: split_newline r
      else match split_newline r with
           | line :: lines => String c line :: lines
           | [] => [String c EmptyString]
           end
  end.

(** [def save_text_as_pdf(text)]: the texts handed to [pdf.multi_cell], one
    call for each line of [text.split("\n")], in order.  The rendering of
    the cells into the bytes of the document is the work of the library. *)
Definition save_text_as_pdf_cells (text : string) : list string :=
  split_newline text.

(** ** The chat page of [main] (lines 102-145) *)

(** The two values of [msg["role"]]. *)
Inductive role : Type := user | assistant.

Record message : Type := {
  msg_role : role;
  content : string
}.

Definition role_text (r : role) : string :=
  match r with
  | user => "user"
  | assistant => "assistant"
  end.

(** [str.lower] on one ASCII character. *)
Definition lower (c : ascii) : ascii :=
  let n := nat_of_ascii c in
  if (65 <=? n) && (n <=? 90) then ascii_of_nat (n + 32) else c.

Fixpoint lower_all (s : string) : string :=
  match s with
  | EmptyString => EmptyString
  | String c r => String (lower c) (lower_all r)
  end.

(** [str.capitalize] on an ASCII text. *)
Definition capitalize (s : string) : string :=
  match s with
  | EmptyString => EmptyString
  | String c r => String (PyStr.upper c) (lower_all r)
  end.

(** [f"{m['role'].capitalize()}: {m['content']}"] *)
Definition transcript_line (m : message) : string :=
  (capitalize (role_text (msg_role m)) ++ ": " ++ content m)%string.

(** The text of line 142, ["\n".join([... for m in chat_history])]. *)
Definition transcript (chat_history : list message) : string :=
  Py.join (String newline EmptyString) (map transcript_line chat_history).

(** One run of the chat page: the Clear button, the initialisation of
    [chat_history], and, when [st.chat_input] returned a text, the two
    appends around the call of the backend.  The result is the history the
    run leaves in the session and, when a turn took place, the cells of the
    document offered for download. *)
Definition chat_page (clear_clicked : bool) (user_input : string)
    (backend : option string) (chat_history : option (list message))
  : list message * option (list string) :=
  let history :=
    if clear_clicked then []
    else match chat_history with
         | Some h => h
         | None => []
         end in
  match user_input with
  | EmptyString => (history, None)
  | _ =>
      let asked := history ++ [{| msg_role := user; content := user_input |}] in
      let ai_response := call_gemini_api backend in
      let answered :=
        asked ++ [{| msg_role := assistant; content := ai_response |}] in
      (answered, Some (save_text_as_pdf_cells (transcript answered)))
  end.

(** Histories made of turns: a user message, then the reply to it. *)
Fixpoint turns (h : list message) : Prop :=
  match h with
  | [] => True
  | u :: a :: h' => msg_role u = user /\ msg_role a = assistant /\ turns h'
  | _ => False
  end.

(** ** The question widgets of the quiz page (lines 208-216) *)

(** [l[idx] = v]; [None] stands for [IndexError]. *)
Fixpoint list_assign (l : list string) (idx : nat) (v : string)
  : option (list string) :=
  match l, idx with
  | [], _ => None
  | _ :: l', 0 => Some (v :: l')
  | x :: l', S idx' =>
      match list_assign l' idx' v with
      | Some l'' => Some (x :: l'')
      | None => None
      end
  end.

(** One pass of the loop of line 210, for widgets that return texts.
    [radio idx options] is what [st.radio] returns for the widget of key
    [q{idx}] shown with [options]; the loop for widgets that return objects
    of any kind is [Objects.render_questions].  [q['question']] is read
    first, then [q["options"]], and the assignment comes last. *)
Definition render_question (radio : nat -> json -> string) (idx : nat)
    (q : json) (answers : list string) : result (list string) :=
  match getitem q "question" with
  | Raise e => Raise e
  | Ok _ =>
      match getitem q "options" with
      | Raise e => Raise e
      | Ok options =>
          match list_assign answers idx (radio idx options) with
          | Some answers' => Ok answers'
          | None => Raise IndexError
          end
      end
  end.

(** The loop from index [idx] on: the answers as the loop leaves them in
    the session, and the exception that ended it, if any. *)
Fixpoint render_questions (radio : nat -> json -> string) (idx : nat)
    (quiz : list json) (answers : list string) : list string * option exn :=
  match quiz with
  | [] => (answers, None)
  | q :: quiz' =>
      match render_question radio idx q answers with
      | Raise e => (answers, Some e)
      | Ok answers' => render_questions radio (S idx) quiz' answers'
      end
  end.

(** ** One run of the quiz page (lines 174-261) *)

Record page_result : Type := {
  generated : option generation;   (* the generation block ran *)
  render_error : option exn;       (* the question loop raised *)
  graded : option grading          (* the grading block ran *)
}.

(** The page from top to bottom.  [quiz_text] is the text area,
    [generate_clicked] and [submit_clicked] the two buttons, and
    [generation_reply] and [grading_reply] what the backend does when the
    page calls it.  [session] is [None] when [quiz_data] is not yet in the
    session state. *)
Definition quiz_page (quiz_text : string) (generate_clicked : bool)
    (generation_reply : option string) (radio : nat -> json -> string)
    (submit_clicked : bool) (grading_reply : option string)
    (session : option session_state) : session_state * page_result :=
  let s0 := match session with
            | Some s => s
            | None => initial_session
            end in
  let (s1, gen) :=
    if generate_clicked
       && negb (String.eqb (PyStr.strip quiz_text) EmptyString)
    then let (s', g) := generate_quiz (call_gemini_api generation_reply) s0 in
         (s', Some g)
    else (s0, None) in
  match quiz_data s1 with
  | Some (q :: qs) =>
      let (answers, raised) :=
        render_questions radio 0 (q :: qs) (user_answers s1) in
      let s2 := {| quiz_data := quiz_data s1; user_answers := answers |} in
      match raised with
      | Some e =>
          (s2, {| generated := gen; render_error := Some e; graded := None |})
      | None =>
          if submit_clicked
          then let (s3, g) :=
                 submit_quiz (call_gemini_api grading_reply) s2 in
               (s3, {| generated := gen; render_error := None;
                       graded := Some g |})
          else (s2, {| generated := gen; render_error := None;
                       graded := None |})
      end
  | _ => (s1, {| generated := gen; render_error := None; graded := None |})
  end.

(** ** The feedback after the score (lines 253-261) *)

Inductive feedback : Type :=
| Amazing          (* st.balloons() and "Amazing! You nailed every question!" *)
| GreatJob         (* "Great job! Keep going!" *)
| KeepPracticing.  (* "Keep practicing! You'll get there" *)

Fixpoint int_of_nat (n : nat) : PrimInt63.int :=
  match n with
  | 0 => 0%uint63
  | S n' => PrimInt63.add (int_of_nat n') 1%uint63
  end.

(** The [float] of an [int] that is a count; the conversion is exact for
    the counts below 2^53. *)
Definition float_of_nat (n : nat) : float :=
  PrimFloat.of_uint63 (int_of_nat n).

(** The binary64 number that the literal [0.7] denotes. *)
Definition seven_tenths : float := 0x1.6666666666666p-1%float.

(** [if score == len(normalized_answers): ... elif score >=
    len(normalized_answers)*0.7: ... else: ...], with the product and the
    comparison in binary64 arithmetic. *)
Definition feedback_of (score total : nat) : feedback :=
  if score =? total then Amazing
  else if PrimFloat.leb (PrimFloat.mul (float_of_nat total) seven_tenths)
                        (float_of_nat score)
       then GreatJob
       else KeepPracticing.

(** The same choice with the exact test [7 * total <= 10 * score]. *)
Definition exact_feedback (score total : nat) : feedback :=
  if score =? total then Amazing
  else if 7 * total <=? 10 * score then GreatJob
       else KeepPracticing.

Definition feedback_eqb (a b : feedback) : bool :=
  match a, b with
  | Amazing, Amazing | GreatJob, GreatJob
  | KeepPracticing, KeepPracticing => true
  | _, _ => false
  end.

(** The two choices agree for every score up to the total, for every total
    up to [bound]. *)
Definition feedback_exact_upto (bound : nat) : bool :=
  forallb (fun total =>
             forallb (fun score =>
                        feedback_eqb (feedback_of score total)
                                     (exact_feedback score total))
                     (seq 0 (S total)))
          (seq 0 (S bound)).

(** The answers are as many as the questions of a quiz on display. *)
Definition aligned (s : session_state) : Prop :=
  match quiz_data s with
  | Some (q :: qs) => List.length (user_answers s) = List.length (q :: qs)
  | _ => True
  end.

(** A question that the page can show: it has the two keys. *)
Definition showable (q : json) : Prop :=
  exists text options,
    getitem q "question" = Ok text /\ getitem q "options" = Ok options.

(** The options of a question, and [JNull] when it has none. *)
Definition options_of (q : json) : json :=
  match getitem q "options" with
  | Ok options => options
  | Raise _ => JNull
  end.

(** The characters of a text that are not whitespace. *)
Fixpoint visible (s : string) : string :=
  match s with
  | EmptyString => EmptyString
  | String c r =>
      if PyStr.isspace c then visible r else String c (visible r)
  end.

(** A text without whitespace other than single spaces between words:
    no whitespace at either end, and every whitespace character is a space
    that follows a character that is not one.  [after_space] says that the
    text so far is empty or ends with a space. *)
Fixpoint tidy_from (after_space : bool) (s : string) : bool :=
  match s with
  | EmptyString => negb after_space
  | String c r =>
      if PyStr.isspace c
      then Ascii.eqb c " " && negb after_space && tidy_from true r
      else tidy_from false r
  end.

Definition tidy (s : string) : bool :=
  match s with
  | EmptyString => true
  | _ => tidy_from true s
  end.

(** The grades [normalize_answer] can return. *)
Definition grades : list string := [EmptyString; "A"; "B"; "C"; "D"].


(* ================================================================== *)
(** * The quiz page on the objects the widgets return *)
(* ================================================================== *)

(** [st.radio] returns the selected element of [q["options"]] as it is, or
    [None], and the options of a committed quiz are not validated: an
    answer in the session can be any object read from the reply.  The
    definitions above give the page for answers that are texts.  This
    module gives it for answers of any kind, with the names of the program;
    the two agree on text answers ([submit_quiz_of_texts] and the lemmas
    around it). *)
Module Objects.

(** The decimal exponent written in the exponent part of a number. *)
Definition exp_value (exp : string) : Z :=
  match exp with
  | EmptyString => 0%Z
  | String _ r =>
      match r with
      | String g ds =>
          if Ascii.eqb g "+" then Json.digits_to_Z 0 ds
          else if Ascii.eqb g "-" then (- Json.digits_to_Z 0 ds)%Z
          else Json.digits_to_Z 0 r
      | EmptyString => 0%Z
      end
  end.

Definition tail (s : string) : string :=
  match s with
  | EmptyString => EmptyString
  | String _ r => r
  end.

(** Whether the [float] read from [lexeme] is zero.  The lexeme denotes
    [m * 10^e] for the integer [m] of its digits; the nearest binary64
    number is zero exactly when [m] is zero or the value is at most
    [2^-1075], half of the smallest positive binary64 number.  The three
    names [NaN], [Infinity] and [-Infinity] are not zero. *)
Definition float_is_zero (lexeme : string) : bool :=
  match Json.scan_int lexeme with
  | Some (_, ds, r) =>
      let (frac, r1) := Json.scan_frac r in
      let (exp, _) := Json.scan_exp r1 in
      let m := Json.digits_to_Z 0 (ds ++ tail frac) in
      let e := (exp_value exp - Z.of_nat (String.length (tail frac)))%Z in
      (m =? 0)%Z || ((e <? 0)%Z && (m * 2 ^ 1075 <=? 10 ^ (- e))%Z)
  | None => false
  end.

(** [bool(v)] *)
Definition truth (v : json) : bool :=
  match v with
  | JNull => false
  | JBool b => b
  | JInt z => negb (z =? 0)%Z
  | JFloat lexeme => negb (float_is_zero lexeme)
  | JStr s => negb (String.eqb s EmptyString)
  | JArr items => match items with [] => false | _ => true end
  | JObj members => match members with [] => false | _ => true end
  end.

(** [normalize_answer(answer)] for an object of any kind: a false object
    passes the guard [if not answer] and gives the empty text, a text is
    normalized, and any other object has no [strip]. *)
Definition normalize_answer_of (answer : json) : result string :=
  match answer with
  | JStr s => Ok (normalize_answer s)
  | _ => if truth answer then Raise AttributeError else Ok EmptyString
  end.

(** The objects [normalize_answer] accepts: the texts and the false
    objects. *)
Definition strippable (answer : json) : bool :=
  match answer with
  | JStr _ => true
  | _ => negb (truth answer)
  end.

(** The letter of an object that [normalize_answer] accepts. *)
Definition letter_of (answer : json) : string :=
  match answer with
  | JStr s => normalize_answer s
  | _ => EmptyString
  end.

Record session_state : Type := Session {
  quiz_data : option (list json);
  user_answers : list json
}.

Definition initial_session : session_state :=
  {| quiz_data := None; user_answers := [] |}.

(** Lines 199-206; the answers start as empty texts. *)
Definition generate_quiz (ai_response : string) (s : session_state)
  : session_state * generation :=
  match extract_json ai_response with
  | Some (q :: qs) =>
      ({| quiz_data := Some (q :: qs);
          user_answers := repeat (JStr EmptyString) (List.length (q :: qs)) |},
       QuizCommitted)
  | falsy =>
      ({| quiz_data := falsy; user_answers := user_answers s |},
       QuizParseFailed)
  end.

(** [l[idx] = v]; [None] stands for [IndexError]. *)
Fixpoint list_assign (l : list json) (idx : nat) (v : json)
  : option (list json) :=
  match l, idx with
  | [], _ => None
  | _ :: l', 0 => Some (v :: l')
  | x :: l', S idx' =>
      match list_assign l' idx' v with
      | Some l'' => Some (x :: l'')
      | None => None
      end
  end.

(** One pass of the loop of line 210; [radio idx options] is the object
    [st.radio] returns for the widget of key [q{idx}], with [JNull] for
    [None]. *)
Definition render_question (radio : nat -> json -> json) (idx : nat)
    (q : json) (answers : list json) : result (list json) :=
  match getitem q "question" with
  | Raise e => Raise e
  | Ok _ =>
      match getitem q "options" with
      | Raise e => Raise e
      | Ok options =>
          match list_assign answers idx (radio idx options) with
          | Some answers' => Ok answers'
          | None => Raise IndexError
          end
      end
  end.

Fixpoint render_questions (radio : nat -> json -> json) (idx : nat)
    (quiz : list json) (answers : list json) : list json * option exn :=
  match quiz with
  | [] => (answers, None)
  | q :: quiz' =>
      match render_question radio idx q answers with
      | Raise e => (answers, Some e)
      | Ok answers' => render_questions radio (S idx) quiz' answers'
      end
  end.

(** Lines 223-251.  The letters of the key are computed first (lines
    230-235), then the letters of the answers (lines 236-237), where an
    answer that is neither false nor a text raises [AttributeError]; then
    the score and the result lines. *)
Definition submit_quiz (ai_answers : string) (s : session_state)
  : session_state * grading :=
  match extract_json ai_answers with
  | None | Some [] => (s, AnswersParseFailed)
  | Some correct_answers =>
      match key_letters correct_answers with
      | Raise e => (s, Crashed [] e)
      | Ok normalized_answers =>
          match comprehension normalize_answer_of (user_answers s) with
          | Raise e => (s, Crashed [] e)
          | Ok user_letters =>
              let score := calculate_score user_letters normalized_answers in
              match quiz_data s with
              | None => (s, Crashed [] TypeError)
              | Some quiz =>
                  match show_results 0 (combine (combine user_letters
                                                         normalized_answers)
                                                quiz) with
                  | (shown, Some e) => (s, Crashed shown e)
                  | (shown, None) =>
                      (s, Graded shown score
                            (List.length normalized_answers))
                  end
              end
          end
      end
  end.

(** One run of the quiz page, lines 174-261. *)
Definition quiz_page (quiz_text : string) (generate_clicked : bool)
    (generation_reply : option string) (radio : nat -> json -> json)
    (submit_clicked : bool) (grading_reply : option string)
    (session : option session_state) : session_state * page_result :=
  let s0 := match session with
            | Some s => s
            | None => initial_session
            end in
  let (s1, gen) :=
    if generate_clicked
       && negb (String.eqb (PyStr.strip quiz_text) EmptyString)
    then let (s', g) := generate_quiz (call_gemini_api generation_reply) s0 in
         (s', Some g)
    else (s0, None) in
  match quiz_data s1 with
  | Some (q :: qs) =>
      let (answers, raised) :=
        render_questions radio 0 (q :: qs) (user_answers s1) in
      let s2 := {| quiz_data := quiz_data s1; user_answers := answers |} in
      match raised with
      | Some e =>
          (s2, {| generated := gen; render_error := Some e; graded := None |})
      | None =>
          if submit_clicked
          then let (s3, g) :=
                 submit_quiz (call_gemini_api grading_reply) s2 in
               (s3, {| generated := gen; render_error := None;
                       graded := Some g |})
          else (s2, {| generated := gen; render_error := None;
                       graded := None |})
      end
  | _ => (s1, {| generated := gen; render_error := None; graded := None |})
  end.

(** The selections of the widgets for the questions of [quiz], in order. *)
Definition selections (radio : nat -> json -> json) (quiz : list json)
  : list json :=
  map (fun iq => radio (fst iq) (options_of (snd iq)))
      (combine (seq 0 (List.length quiz)) quiz).

End Objects.

(** A session with text answers, as a session of objects. *)
Definition of_texts (s : session_state) : Objects.session_state :=
  {| Objects.quiz_data := quiz_data s;
     Objects.user_answers := map JStr (user_answers s) |}.

(* ================================================================== *)
(** * Text normalizer *)
(* ================================================================== *)

Section Whitespace.

Import PyStr.

Lemma rstrip_cons_fixed (c : ascii) (u : string) :
  rstrip (String c u) = String c u ->
  rstrip u = u /\ (isspace c = true -> u <> EmptyString).
Proof.
  simpl. destruct (rstrip u) eqn:E.
  - destruct (isspace c); [discriminate|].
    intros H. injection H as <-. split; [reflexivity | discriminate].
  - intros H. injection H as <-. split; [reflexivity | discriminate].
Qed.

Lemma rstrip_idempotent (s : string) : rstrip (rstrip s) = rstrip s.
Proof.
  induction s as [|c s IH]; [reflexivity|].
  simpl. destruct (rstrip s) as [|d r] eqn:E.
  - destruct (isspace c) eqn:W; simpl; [reflexivity|]. now rewrite W.
  - change (rstrip (String c (String d r)))
      with (match rstrip (String d r) with
            | EmptyString =>
                if isspace c then EmptyString else String c EmptyString
            | x => String c x
            end).
    now rewrite IH.
Qed.

Lemma lstrip_head (s : string) :
  match lstrip s with
  | EmptyString => True
  | String c _ => isspace c = false
  end.
Proof.
  induction s as [|c s IH]; simpl; [exact I|].
  destruct (isspace c) eqn:W; [exact IH | exact W].
Qed.

Lemma rstrip_keeps_head (c : ascii) (s : string) :
  isspace c = false -> exists r, rstrip (String c s) = String c r.
Proof.
  intros W. simpl. destruct (rstrip s); rewrite ?W; eauto.
Qed.

(** The stripped text neither starts nor ends with whitespace. *)
Lemma strip_head (s : string) :
  match strip s with
  | EmptyString => True
  | String c _ => isspace c = false
  end.
Proof.
  unfold strip. pose proof (lstrip_head s) as H.
  destruct (lstrip s) as [|c r]; [exact I|].
  destruct (rstrip_keeps_head c r H) as [r' ->]. exact H.
Qed.

Lemma strip_rstrip (s : string) : rstrip (strip s) = strip s.
Proof. apply rstrip_idempotent. Qed.

Lemma lstrip_fixed (s : string) :
  match s with
  | EmptyString => True
  | String c _ => isspace c = false
  end -> lstrip s = s.
Proof. destruct s as [|c r]; simpl; [reflexivity|]. now intros ->. Qed.

Lemma sub_ws_run_idempotent (s : string) (b : bool) :
  sub_ws_run b (sub_ws_run b s) = sub_ws_run b s.
Proof.
  revert b. induction s as [|c s IH]; intros b; [reflexivity|].
  simpl. destruct (isspace c) eqn:W.
  - destruct b; [apply IH|]. simpl. now rewrite IH.
  - simpl. rewrite W. now rewrite IH.
Qed.

Lemma sub_ws_run_nonempty (s : string) (b : bool) :
  rstrip s = s -> s <> EmptyString -> sub_ws_run b s <> EmptyString.
Proof.
  revert b. induction s as [|c s IH]; intros b Hr Hne; [congruence|].
  apply rstrip_cons_fixed in Hr as [Hr Hc]. simpl.
  destruct (isspace c); [|discriminate].
  destruct b; [|discriminate]. apply IH; auto.
Qed.

Lemma sub_ws_run_rstrip (s : string) (b : bool) :
  rstrip s = s -> rstrip (sub_ws_run b s) = sub_ws_run b s.
Proof.
  revert b. induction s as [|c s IH]; intros b Hr; [reflexivity|].
  apply rstrip_cons_fixed in Hr as [Hr Hc]. simpl.
  destruct (isspace c) eqn:W.
  - destruct b; [now apply IH|].
    simpl. rewrite (IH true Hr).
    pose proof (sub_ws_run_nonempty s true Hr (Hc eq_refl)) as Hne.
    destruct (sub_ws_run true s); congruence.
  - simpl. rewrite (IH false Hr).
    destruct (sub_ws_run false s); [now rewrite W | reflexivity].
Qed.

Lemma sub_ws_run_head (s : string) :
  match s with
  | EmptyString => True
  | String c _ => isspace c = false
  end ->
  match sub_ws_run false s with
  | EmptyString => True
  | String c _ => isspace c = false
  end.
Proof. destruct s as [|c r]; simpl; [auto|]. intros W. now rewrite W. Qed.

(** A cleaned text is left alone by [strip]. *)
Lemma strip_clean_text (text : string) :
  strip (clean_text text) = clean_text text.
Proof.
  unfold clean_text, re_sub_ws, strip at 1.
  rewrite lstrip_fixed by (apply sub_ws_run_head, strip_head).
  apply sub_ws_run_rstrip, strip_rstrip.
Qed.

End Whitespace.

(** C9. [clean_text] (collapseWhitespace) is idempotent: for every input
    text, applying it twice gives the same text as applying it once. *)
Theorem clean_text_idempotent (text : string) :
  clean_text (clean_text text) = clean_text text.
Proof.
  unfold clean_text at 1. rewrite strip_clean_text.
  unfold clean_text, PyStr.re_sub_ws. apply sub_ws_run_idempotent.
Qed.

(** C7. [normalize_answer] (normalizeAnswerToken) is a total function of its
    text argument: no path of it raises, whatever the text (empty, without
    letters, starting with a digit).  Its value is the grade of the first
    character of the stripped text when that character is a letter A-D in
    either case, and the empty text otherwise. *)
Theorem normalize_answer_leading_letter (answer : string) :
  match PyStr.strip answer with
  | String c _ =>
      (exists g, In (c, g) letter_grades /\ normalize_answer answer = g)
      \/ ((forall g, ~ In (c, g) letter_grades)
          /\ normalize_answer answer = EmptyString)
  | EmptyString => normalize_answer answer = EmptyString
  end.
Proof.
  assert (G : forall c : ascii,
             (PyStr.is_AD c = true
              /\ In (c, String (PyStr.upper c) EmptyString) letter_grades)
             \/ (PyStr.is_AD c = false
                 /\ forall g, ~ In (c, g) letter_grades)).
  { intros c.
    destruct c as [[] [] [] [] [] [] [] []];
      first [ left; split; [reflexivity | simpl; tauto]
            | right; split; [reflexivity|];
              intros g H; simpl in H;
              repeat (destruct H as [H|H]; [discriminate H|]); exact H ]. }
  destruct answer as [|a rest]; [reflexivity|].
  unfold normalize_answer.
  destruct (PyStr.strip (String a rest)) as [|c r]; [reflexivity|].
  unfold PyStr.re_match_AD. destruct (G c) as [[-> Hin]|[-> Hout]].
  - left. exists (String (PyStr.upper c) EmptyString). split; [exact Hin | reflexivity].
  - right. split; [exact Hout | reflexivity].
Qed.

Example clean_text_sample : clean_text "  a   b 	c  " = "a b c".
Proof. reflexivity. Qed.

Example normalize_answer_samples :
  normalize_answer " b) second" = "B"
  /\ normalize_answer "D" = "D"
  /\ normalize_answer "1A" = EmptyString
  /\ normalize_answer "   " = EmptyString
  /\ normalize_answer "E" = EmptyString.
Proof. repeat split; reflexivity. Qed.

(* ================================================================== *)
(** * Scorer *)
(* ================================================================== *)

Lemma filter_seq_shift (f : nat -> bool) (start n : nat) :
  List.length (filter f (seq (S start) n))
  = List.length (filter (fun i => f (S i)) (seq start n)).
Proof.
  revert start. induction n as [|n IH]; intros start; [reflexivity|].
  simpl. destruct (f (S start)); simpl; now rewrite IH.
Qed.

(** The score is the number of equal pairs among the positions that both
    lists have. *)
Lemma calculate_score_equal_below (us cs : list string) :
  calculate_score us cs
  = List.length (equal_below (Nat.min (List.length us) (List.length cs)) us cs).
Proof.
  unfold calculate_score, equal_below.
  revert cs. induction us as [|u us IH]; intros [|c cs]; try reflexivity.
  cbn [combine map list_sum List.length Nat.min seq filter nth fst snd].
  change (list_sum ((if String.eqb u c then 1 else 0)
                    :: map (fun p : string * string =>
                              if String.eqb (fst p) (snd p) then 1 else 0)
                           (combine us cs)))
    with ((if String.eqb u c then 1 else 0)
          + list_sum (map (fun p : string * string =>
                             if String.eqb (fst p) (snd p) then 1 else 0)
                          (combine us cs))).
  rewrite IH.
  pose proof (filter_seq_shift
                (fun i => String.eqb (nth i (u :: us) EmptyString)
                                     (nth i (c :: cs) EmptyString))
                0 (Nat.min (List.length us) (List.length cs))) as Hs.
  cbn [nth] in Hs.
  destruct (String.eqb u c); cbn [List.length]; rewrite Hs; reflexivity.
Qed.

(** C6. For two sequences of letters of equal length, [calculate_score]
    (score) returns the count of the indices at which they are equal; and
    the score of A,B,C,D,A against A,B,X,D,B is 3. *)
Theorem calculate_score_counts_equal_pairs :
  (forall us cs : list string,
      List.length us = List.length cs ->
      calculate_score us cs = List.length (equal_positions us cs))
  /\ calculate_score ["A"; "B"; "C"; "D"; "A"] ["A"; "B"; "X"; "D"; "B"] = 3.
Proof.
  split; [|reflexivity].
  intros us cs H. rewrite calculate_score_equal_below.
  rewrite <- H, Nat.min_id. reflexivity.
Qed.

Lemma calculate_score_counts_equal_pairs_witness :
  List.length ["A"; "B"; "C"] = List.length ["A"; "X"; "C"]
  /\ calculate_score ["A"; "B"; "C"] ["A"; "X"; "C"]
     = List.length (equal_positions ["A"; "B"; "C"] ["A"; "X"; "C"]).
Proof.
  split; [reflexivity|].
  apply (proj1 calculate_score_counts_equal_pairs); reflexivity.
Defined.

(** C2, as the code has it.  [calculate_score] has no failing path: for
    sequences of any two lengths it returns the count of the equal pairs
    among the positions both have, so the rest of the longer sequence is
    ignored and the score is at most the shorter length. *)
Theorem calculate_score_truncates (us cs : list string) :
  let n := Nat.min (List.length us) (List.length cs) in
  calculate_score us cs = List.length (equal_below n us cs)
  /\ calculate_score us cs = calculate_score (firstn n us) (firstn n cs)
  /\ calculate_score us cs <= n.
Proof.
  cbv zeta. split; [apply calculate_score_equal_below|]. split.
  - unfold calculate_score. rewrite <- combine_firstn.
    rewrite firstn_all2; [reflexivity|]. now rewrite length_combine.
  - rewrite calculate_score_equal_below. unfold equal_below.
    etransitivity; [apply filter_length_le|]. now rewrite length_seq.
Qed.

(** C2, as stated, fails: two sequences of unequal length get a score. *)
Lemma calculate_score_unequal_lengths_scored :
  List.length ["A"] <> List.length ["A"; "B"]
  /\ calculate_score ["A"] ["A"; "B"] = 1
  /\ calculate_score ["A"; "B"; "C"] ["A"; "B"] = 2.
Proof. repeat split; [discriminate | ..]; reflexivity. Qed.

(* ================================================================== *)
(** * The fuel of [json.loads] is enough *)
(* ================================================================== *)

Section Fuel.

Import Json.

Lemma span_digits_length (s ds r : string) :
  span_digits s = (ds, r) -> String.length r <= String.length s.
Proof.
  revert ds r. induction s as [|c s IH]; intros ds r; simpl.
  - intros H. injection H as <- <-. auto.
  - destruct (is_digit c).
    + destruct (span_digits s) as [ds' r'] eqn:E.
      intros H. injection H as <- <-. specialize (IH _ _ eq_refl). lia.
    + intros H. injection H as <- <-. simpl. lia.
Qed.

Lemma strip_prefix_length (p s r : string) :
  strip_prefix p s = Some r ->
  String.length s = String.length p + String.length r.
Proof.
  revert s. induction p as [|a p IH]; intros [|b s]; simpl;
    try discriminate.
  - intros H. now injection H as <-.
  - intros H. now injection H as <-.
  - destruct (Ascii.eqb a b); [|discriminate]. intros H.
    now rewrite (IH _ H).
Qed.

Lemma scan_frac_length (s f r : string) :
  scan_frac s = (f, r) -> String.length r <= String.length s.
Proof.
  unfold scan_frac. destruct s as [|c s].
  - intros H. now injection H as <- <-.
  - destruct (Ascii.eqb c ".").
    + destruct (span_digits s) as [[|d ds] r'] eqn:E.
      * intros H. now injection H as <- <-.
      * intros H. injection H as <- <-.
        apply span_digits_length in E. simpl. lia.
    + intros H. now injection H as <- <-.
Qed.

Lemma scan_exp_length (s e r : string) :
  scan_exp s = (e, r) -> String.length r <= String.length s.
Proof.
  unfold scan_exp. destruct s as [|c s].
  - intros H. now injection H as <- <-.
  - destruct (Ascii.eqb c "e" || Ascii.eqb c "E").
    + destruct (match s with
                | String g r1 =>
                    if Ascii.eqb g "+" || Ascii.eqb g "-"
                    then (String g EmptyString, r1) else (EmptyString, s)
                | EmptyString => (EmptyString, s)
                end) as [sign r1] eqn:Es.
      assert (Hr1 : String.length r1 <= String.length s).
      { destruct s as [|g s']; [now injection Es as <- <-|].
        destruct (Ascii.eqb g "+" || Ascii.eqb g "-");
          injection Es as <- <-; simpl; lia. }
      destruct (span_digits r1) as [[|d ds] r2] eqn:E.
      * intros H. now injection H as <- <-.
      * intros H. injection H as <- <-.
        apply span_digits_length in E. simpl. lia.
    + intros H. now injection H as <- <-.
Qed.

Lemma scan_int_length (s : string) neg ds r :
  scan_int s = Some (neg, ds, r) -> String.length r < String.length s.
Proof.
  unfold scan_int.
  destruct (match s with
            | String c r0 => if Ascii.eqb c "-" then (true, r0) else (false, s)
            | EmptyString => (false, s)
            end) as [neg' s1] eqn:E.
  assert (H1 : String.length s1 <= String.length s).
  { destruct s as [|c s']; [now injection E as <- <-|].
    destruct (Ascii.eqb c "-"); injection E as <- <-; simpl; lia. }
  destruct s1 as [|c r0]; [discriminate|].
  destruct (Ascii.eqb c "0").
  - intros H. injection H as <- <- <-. simpl in H1. lia.
  - destruct (is_digit c); [|discriminate].
    destruct (span_digits r0) as [ds' r'] eqn:Ed.
    intros H. injection H as <- <- <-.
    apply span_digits_length in Ed. simpl in H1. lia.
Qed.

Lemma scan_number_length (s r : string) (v : json) :
  scan_number s = Some (v, r) -> String.length r < String.length s.
Proof.
  unfold scan_number.
  destruct (scan_int s) as [[[neg ds] r0]|] eqn:Ei; [|discriminate].
  apply scan_int_length in Ei.
  destruct (scan_frac r0) as [frac r1] eqn:Ef. apply scan_frac_length in Ef.
  destruct (scan_exp r1) as [exp r2] eqn:Ee. apply scan_exp_length in Ee.
  destruct frac, exp; intros H; injection H as <- <-; lia.
Qed.

Lemma scan_scalar_length (s r : string) (v : json) :
  scan_scalar s = Some (v, r) -> String.length r < String.length s.
Proof.
  unfold scan_scalar.
  repeat match goal with
         | |- context [strip_prefix ?p s] =>
             let E := fresh "E" in
             destruct (strip_prefix p s) eqn:E;
             [ apply strip_prefix_length in E; simpl in E;
               intros H; injection H as <- <-; lia | clear E ]
         | |- context [scan_number s] =>
             let E := fresh "E" in
             destruct (scan_number s) as [[v' r']|] eqn:E;
             [ apply scan_number_length in E;
               intros H; injection H as <- <-; exact E | clear E ]
         end.
  discriminate.
Qed.

Lemma scan_string_length (s body r : string) :
  scan_string s = Some (body, r) -> String.length r < String.length s.
Proof.
  remember (String.length s) as n eqn:Hn.
  assert (Hle : String.length s <= n) by lia. clear Hn.
  revert s body r Hle.
  induction n as [|n IH]; intros s body r Hle;
    (destruct s as [|c s]; [discriminate|]); simpl in Hle; [lia|].
  cbn [scan_string].
  destruct (Ascii.eqb c dquote).
  { intros H. injection H as <- <-. simpl. lia. }
  destruct (Ascii.eqb c backslash).
  - destruct s as [|e s]; [discriminate|].
    destruct (Ascii.eqb e "u").
    + destruct s as [|h1 [|h2 [|h3 [|h4 s]]]]; try discriminate.
      destruct (unicode_escape h1 h2 h3 h4); [|discriminate].
      destruct (scan_string s) as [[b r']|] eqn:E; [|discriminate].
      intros H. injection H as <- <-.
      apply IH in E; simpl in *; lia.
    + destruct (simple_escape e); [|discriminate].
      destruct (scan_string s) as [[b r']|] eqn:E; [|discriminate].
      intros H. injection H as <- <-.
      apply IH in E; simpl in *; lia.
  - destruct (nat_of_ascii c <? 32); [discriminate|].
    destruct (scan_string s) as [[b r']|] eqn:E; [|discriminate].
    intros H. injection H as <- <-.
    apply IH in E; simpl in *; lia.
Qed.

(** What [lex] finds with some fuel it finds with any fuel above the length
    of the text. *)
Lemma lex_fuel (n : nat) :
  forall s ts,
    lex n s = Some ts ->
    forall m, String.length s < m -> lex m s = Some ts.
Proof.
  induction n as [|n IH]; intros s ts Hl m Hm; [discriminate|].
  destruct m as [|m]; [lia|].
  destruct s as [|c r]; [exact Hl|]. simpl in Hm.
  cbn [lex] in Hl |- *.
  assert (K : forall r' t,
             String.length r' <= String.length r ->
             cons_token t (lex n r') = Some ts ->
             cons_token t (lex m r') = Some ts).
  { intros r' t Hr Hc. destruct (lex n r') as [l|] eqn:El; [|discriminate].
    rewrite (IH _ _ El m) by lia. exact Hc. }
  destruct (is_ws c); [apply (IH _ _ Hl); lia|].
  repeat match goal with
         | |- (if ?b then cons_token _ _ else _) = _ =>
             destruct b; [apply K; [lia | exact Hl]|]
         end.
  destruct (Ascii.eqb c dquote).
  - destruct (scan_string r) as [[b r']|] eqn:E; [|discriminate].
    apply scan_string_length in E. apply K; [lia | exact Hl].
  - destruct (scan_scalar (String c r)) as [[v r']|] eqn:E; [|discriminate].
    apply scan_scalar_length in E. simpl in E. apply K; [lia | exact Hl].
Qed.

(** A call of the parser that succeeds consumes at least one token, and
    succeeds with any fuel that pays twice for each token it consumes. *)
Lemma parse_fuel (n : nat) :
  (forall ts v r,
      parse_value n ts = Some (v, r) ->
      List.length r < List.length ts
      /\ forall m, 2 * (List.length ts - List.length r) <= S m ->
                   parse_value m ts = Some (v, r))
  /\ (forall ts acc v r,
         parse_array n ts acc = Some (v, r) ->
         List.length r < List.length ts
         /\ forall m, 2 * (List.length ts - List.length r) <= m ->
                      parse_array m ts acc = Some (v, r))
  /\ (forall ts acc v r,
         parse_object n ts acc = Some (v, r) ->
         List.length r < List.length ts
         /\ forall m, 2 * (List.length ts - List.length r) <= m ->
                      parse_object m ts acc = Some (v, r)).
Proof.
  induction n as [|n (IHv & IHa & IHo)];
    [repeat split; discriminate|].
  split; [|split].
  - intros ts v r. cbn [parse_value].
    destruct ts as [|t ts]; [discriminate|].
    destruct t; try discriminate.
    + destruct ts as [|t' ts'].
      * intros H. apply IHa in H as [H1 H2]. cbn [List.length] in H1. lia.
      * destruct t'.
        all: try (intros H; apply IHa in H as [H1 H2];
                  split; [cbn [List.length] in *; lia|];
                  intros m Hm; destruct m as [|m]; [cbn [List.length] in *; lia|];
                  cbn [parse_value]; apply H2; cbn [List.length] in *; lia).
        intros H. injection H as <- <-. split; [cbn [List.length] in *; lia|].
        intros m Hm. destruct m as [|m]; [cbn [List.length] in Hm; lia|]. reflexivity.
    + destruct ts as [|t' ts'].
      * intros H. apply IHo in H as [H1 H2]. cbn [List.length] in H1. lia.
      * destruct t'.
        all: try (intros H; apply IHo in H as [H1 H2];
                  split; [cbn [List.length] in *; lia|];
                  intros m Hm; destruct m as [|m]; [cbn [List.length] in *; lia|];
                  cbn [parse_value]; apply H2; cbn [List.length] in *; lia).
        intros H. injection H as <- <-. split; [cbn [List.length] in *; lia|].
        intros m Hm. destruct m as [|m]; [cbn [List.length] in Hm; lia|]. reflexivity.
    + intros H. injection H as <- <-. split; [cbn [List.length] in *; lia|].
      intros m Hm. destruct m as [|m]; [cbn [List.length] in Hm; lia|]. reflexivity.
  - intros ts acc v r. cbn [parse_array].
    destruct (parse_value n ts) as [[x [|t rest]]|] eqn:E; try discriminate.
    apply IHv in E as [E1 E2].
    destruct t; try discriminate.
    + intros H. injection H as <- <-. split; [cbn [List.length] in *; lia|].
      intros m Hm. destruct m as [|m]; [cbn [List.length] in *; lia|].
      cbn [parse_array]. rewrite E2 by (cbn [List.length] in *; lia). reflexivity.
    + intros H. apply IHa in H as [H1 H2]. split; [cbn [List.length] in *; lia|].
      intros m Hm. destruct m as [|m]; [cbn [List.length] in *; lia|].
      cbn [parse_array]. rewrite E2 by (cbn [List.length] in *; lia).
      apply H2. cbn [List.length] in *; lia.
  - intros ts acc v r. cbn [parse_object].
    destruct ts as [|[| | | | | |[]] [|[] ts]]; try discriminate.
    destruct (parse_value n ts) as [[x [|t rest]]|] eqn:E; try discriminate.
    apply IHv in E as [E1 E2].
    destruct t; try discriminate.
    + intros H. injection H as <- <-. split; [cbn [List.length] in *; lia|].
      intros m Hm. destruct m as [|m]; [cbn [List.length] in *; lia|].
      cbn [parse_object]. rewrite E2 by (cbn [List.length] in *; lia). reflexivity.
    + intros H. apply IHo in H as [H1 H2]. split; [cbn [List.length] in *; lia|].
      intros m Hm. destruct m as [|m]; [cbn [List.length] in *; lia|].
      cbn [parse_object]. rewrite E2 by (cbn [List.length] in *; lia).
      apply H2. cbn [List.length] in *; lia.
Qed.

(** [loads] finds every value that the lexer and the parser find with any
    fuel at all. *)
Theorem loads_fuel_enough (s : string) (f1 f2 : nat) (ts : list token)
    (v : json) :
  lex f1 s = Some ts ->
  parse_value f2 ts = Some (v, []) ->
  loads s = Some v.
Proof.
  intros Hl Hp. unfold loads.
  assert (L : lex (S (String.length s)) s = Some ts)
    by (apply (lex_fuel f1); [exact Hl | lia]).
  rewrite L.
  destruct (proj1 (parse_fuel f2) _ _ _ Hp) as [_ H].
  rewrite H; [reflexivity|]. simpl. lia.
Qed.

End Fuel.

(* ================================================================== *)
(** * Structured extractor *)
(* ================================================================== *)

Section Extractor.

Import Json.

Lemma parse_array_is_list (fuel : nat) :
  forall ts acc v r,
    parse_array fuel ts acc = Some (v, r) -> exists items, v = JArr items.
Proof.
  induction fuel as [|fuel IH]; intros ts acc v r; [discriminate|].
  simpl. destruct (parse_value fuel ts) as [[x [|t rest]]|];
    try discriminate.
  destruct t; try discriminate.
  - intros H. injection H as <- _. eauto.
  - apply IH.
Qed.

Lemma parse_value_bracket_is_list (fuel : nat) (ts : list token) v r :
  parse_value fuel (TLBracket :: ts) = Some (v, r) ->
  exists items, v = JArr items.
Proof.
  destruct fuel as [|fuel]; [discriminate|]. simpl.
  destruct ts as [|t rest].
  - apply parse_array_is_list.
  - destruct t; try apply parse_array_is_list.
    intros H. injection H as <- _. eauto.
Qed.

(** A text that starts with ['['] is read by [json.loads] as a list, or
    not at all. *)
Lemma loads_bracket_is_list (t : string) (v : json) :
  loads (String "[" t) = Some v -> exists items, v = JArr items.
Proof.
  unfold loads.
  change (lex (S (String.length (String "[" t))) (String "[" t))
    with (cons_token TLBracket (lex (String.length (String "[" t)) t)).
  destruct (lex (String.length (String "[" t)) t) as [ts|];
    [|discriminate].
  cbn [cons_token].
  destruct (parse_value (2 * List.length (TLBracket :: ts) + 2)
              (TLBracket :: ts)) as [[x r]|] eqn:E; [|discriminate].
  apply parse_value_bracket_is_list in E as [items ->].
  destruct r; [|discriminate]. intros H. injection H as <-. eauto.
Qed.

End Extractor.

Lemma re_search_array_bracket (s m : string) :
  re_search_array s = Some m -> exists t, m = String "[" t.
Proof.
  unfold re_search_array.
  destruct (after_first_lbracket s) as [r|]; [|discriminate].
  destruct (upto_last_rbracket r) as [t|]; [|discriminate].
  intros H. injection H as <-. eauto.
Qed.

(** [extract_json] returns the items of the list that [json.loads] read off
    the matched text, and [None] exactly when there is no match or
    [json.loads] raised. *)
Lemma extract_json_some (s : string) (items : list json) :
  extract_json s = Some items <->
  exists m, re_search_array s = Some m /\ Json.loads m = Some (JArr items).
Proof.
  unfold extract_json. split.
  - destruct (re_search_array s) as [m|]; [|discriminate].
    destruct (Json.loads m) as [[]|] eqn:E; try discriminate.
    intros H. injection H as <-. eauto.
  - intros (m & -> & ->). reflexivity.
Qed.

Lemma extract_json_none (s : string) :
  extract_json s = None <->
  re_search_array s = None
  \/ exists m, re_search_array s = Some m /\ Json.loads m = None.
Proof.
  unfold extract_json. split.
  - destruct (re_search_array s) as [m|] eqn:Em; [|auto].
    destruct (Json.loads m) as [v|] eqn:E; [|eauto].
    destruct (re_search_array_bracket _ _ Em) as [t ->].
    destruct (loads_bracket_is_list _ _ E) as [items ->]. discriminate.
  - intros [->|(m & -> & ->)]; reflexivity.
Qed.

Lemma after_first_lbracket_app (pre r : string) :
  Py.contains "[" pre = false ->
  after_first_lbracket (pre ++ String "[" r) = Some r.
Proof.
  induction pre as [|c pre IH];
    cbn [Py.contains after_first_lbracket append]; [now rewrite Ascii.eqb_refl|].
  rewrite (Ascii.eqb_sym "[" c). destruct (Ascii.eqb c "["); [discriminate|].
  exact IH.
Qed.

Lemma upto_last_rbracket_none (suf : string) :
  Py.contains "]" suf = false -> upto_last_rbracket suf = None.
Proof.
  induction suf as [|c suf IH];
    cbn [Py.contains upto_last_rbracket]; [reflexivity|].
  rewrite (Ascii.eqb_sym "]" c). destruct (Ascii.eqb c "]"); [discriminate|].
  intros H. now rewrite IH.
Qed.

Lemma upto_last_rbracket_app (body suf : string) :
  Py.contains "]" suf = false ->
  upto_last_rbracket (body ++ String "]" suf)
  = Some (body ++ String "]" EmptyString)%string.
Proof.
  intros H. induction body as [|c body IH]; cbn [upto_last_rbracket append].
  - rewrite upto_last_rbracket_none by exact H. now rewrite Ascii.eqb_refl.
  - now rewrite IH.
Qed.

(** The match of [re_search_array] in a text whose prose has no bracket of
    its own. *)
Lemma re_search_array_embedded (pre body suf : string) :
  Py.contains "[" pre = false ->
  Py.contains "]" suf = false ->
  re_search_array (pre ++ String "[" (body ++ String "]" suf))
  = Some (String "[" (body ++ String "]" EmptyString)).
Proof.
  intros Hp Hs. unfold re_search_array.
  rewrite after_first_lbracket_app by exact Hp.
  now rewrite upto_last_rbracket_app by exact Hs.
Qed.

(** Conversely, every match starts at the first ['['] of the text and ends
    at its last [']']. *)
Lemma re_search_array_match (s m : string) :
  re_search_array s = Some m ->
  exists pre body suf,
    s = (pre ++ String "[" (body ++ String "]" suf))%string
    /\ m = String "[" (body ++ String "]" EmptyString)
    /\ Py.contains "[" pre = false
    /\ Py.contains "]" suf = false.
Proof.
  assert (A : forall s r, after_first_lbracket s = Some r ->
              exists pre, s = (pre ++ String "[" r)%string
                          /\ Py.contains "[" pre = false).
  { clear. induction s as [|c s IH]; intros r;
      cbn [after_first_lbracket]; [discriminate|].
    destruct (Ascii.eqb c "[") eqn:E.
    - intros H. injection H as <-. apply Ascii.eqb_eq in E as ->.
      exists EmptyString. split; reflexivity.
    - intros H. destruct (IH _ H) as (pre & -> & Hp).
      exists (String c pre). split; [reflexivity|].
      cbn [Py.contains]. now rewrite (Ascii.eqb_sym "[" c), E. }
  assert (B : forall r t, upto_last_rbracket r = Some t ->
              exists body suf, r = (body ++ String "]" suf)%string
                               /\ t = (body ++ String "]" EmptyString)%string
                               /\ Py.contains "]" suf = false).
  { clear. induction r as [|c r IH]; intros t;
      cbn [upto_last_rbracket]; [discriminate|].
    destruct (upto_last_rbracket r) as [t'|] eqn:E.
    - intros H. injection H as <-.
      destruct (IH _ eq_refl) as (body & suf & -> & -> & Hs).
      exists (String c body), suf. repeat split; auto.
    - destruct (Ascii.eqb c "]") eqn:Ec; [|discriminate].
      intros H. injection H as <-. apply Ascii.eqb_eq in Ec as ->.
      exists EmptyString, r. repeat split.
      clear IH. induction r as [|d r IHr]; [reflexivity|].
      cbn [upto_last_rbracket Py.contains] in E |- *.
      destruct (upto_last_rbracket r); [discriminate|].
      rewrite (Ascii.eqb_sym "]" d).
      destruct (Ascii.eqb d "]"); [discriminate|]. now apply IHr. }
  unfold re_search_array.
  destruct (after_first_lbracket s) as [r|] eqn:Ea; [|discriminate].
  destruct (upto_last_rbracket r) as [t|] eqn:Eb; [|discriminate].
  intros H. injection H as <-.
  destruct (A _ _ Ea) as (pre & -> & Hp).
  destruct (B _ _ Eb) as (body & suf & -> & -> & Hs).
  exists pre, body, suf. auto.
Qed.

Example extract_json_samples :
  extract_json "no brackets here" = None
  /\ extract_json "[1, 2" = None
  /\ extract_json "] then [" = None
  /\ extract_json (Json.text "Key: ['A',
 'B'] done")
     = Some [JStr "A"; JStr "B"].
Proof. repeat split; vm_compute; reflexivity. Qed.

(** C4, as the code has it.  A text [[body]] that [json.loads] reads as a
    list, embedded between a prefix without ['['] and a suffix without
    [']'], is recovered by [extract_json]: the result is that list. *)
Theorem extract_json_round_trip (pre body suf : string) (items : list json) :
  Py.contains "[" pre = false ->
  Py.contains "]" suf = false ->
  Json.loads ("[" ++ body ++ "]")%string = Some (JArr items) ->
  extract_json (pre ++ "[" ++ body ++ "]" ++ suf)%string = Some items.
Proof.
  intros Hp Hs Hl. apply extract_json_some.
  exists ("[" ++ body ++ "]")%string. split; [|exact Hl].
  exact (re_search_array_embedded pre body suf Hp Hs).
Qed.

Lemma extract_json_round_trip_witness :
  Py.contains "[" "Here is the key: " = false
  /\ Py.contains "]" " Hope this helps!" = false
  /\ Json.loads ("[" ++ Json.text "'A', 'b)'" ++ "]")%string
     = Some (JArr [JStr "A"; JStr "b)"])
  /\ extract_json ("Here is the key: " ++ "[" ++ Json.text "'A', 'b)'" ++ "]"
                   ++ " Hope this helps!")%string
     = Some [JStr "A"; JStr "b)"].
Proof.
  assert (Hp : Py.contains "[" "Here is the key: " = false) by reflexivity.
  assert (Hs : Py.contains "]" " Hope this helps!" = false) by reflexivity.
  assert (Hl : Json.loads ("[" ++ Json.text "'A', 'b)'" ++ "]")%string
               = Some (JArr [JStr "A"; JStr "b)"])) by (vm_compute; reflexivity).
  split; [exact Hp|]. split; [exact Hs|]. split; [exact Hl|].
  exact (extract_json_round_trip _ _ _ _ Hp Hs Hl).
Defined.

(** C4, as stated, fails: a ['['] in the prefix or a [']'] in the suffix
    moves the ends of the match, and the text [[1, 2]] is then not
    recovered. *)
Lemma extract_json_brackets_in_prose :
  Json.loads "[1, 2]" = Some (JArr [JInt 1; JInt 2])
  /\ extract_json ("Answers [final]: " ++ "[1, 2]" ++ "")%string = None
  /\ extract_json ("" ++ "[1, 2]" ++ " (see note 3])")%string = None
  /\ extract_json ("[" ++ "[1, 2]" ++ "]")%string
     = Some [JArr [JInt 1; JInt 2]].
Proof. repeat split; vm_compute; reflexivity. Qed.

(* ================================================================== *)
(** * Quiz session: generation *)
(* ================================================================== *)

(** C3, as the code has it.  The generation step commits whatever
    non-empty list the extractor returns, with the answers reset to one
    empty text per committed element, and the session is then [Ready].
    When the extractor returns [None] or the empty list, the step reports
    the parse failure, [quiz_data] holds that result, so the session is
    [Empty], and the answers are left as they were. *)
Theorem generate_quiz_commits_nonempty (ai_response : string)
    (s : session_state) :
  (forall q qs,
      extract_json ai_response = Some (q :: qs) ->
      generate_quiz ai_response s
      = ({| quiz_data := Some (q :: qs);
            user_answers := repeat EmptyString (List.length (q :: qs)) |},
         QuizCommitted)
      /\ state_of (fst (generate_quiz ai_response s)) = Ready)
  /\ (extract_json ai_response = None \/ extract_json ai_response = Some [] ->
      generate_quiz ai_response s
      = ({| quiz_data := extract_json ai_response;
            user_answers := user_answers s |},
         QuizParseFailed)
      /\ state_of (fst (generate_quiz ai_response s)) = Empty).
Proof.
  unfold generate_quiz. split.
  - intros q qs ->. split; reflexivity.
  - intros [-> | ->]; split; reflexivity.
Qed.

Lemma generate_quiz_commits_nonempty_witness :
  extract_json (Json.text "Sure! [{'question': 'Q', 'options': []}, 7]")
  = Some [JObj [("question", JStr "Q"); ("options", JArr [])]; JInt 7]
  /\ generate_quiz (Json.text "Sure! [{'question': 'Q', 'options': []}, 7]")
       session_one
     = ({| quiz_data :=
             Some [JObj [("question", JStr "Q"); ("options", JArr [])];
                   JInt 7];
           user_answers := [EmptyString; EmptyString] |},
        QuizCommitted)
  /\ extract_json "I cannot help with that." = None
  /\ generate_quiz "I cannot help with that." session_one
     = ({| quiz_data := None; user_answers := user_answers session_one |},
        QuizParseFailed).
Proof.
  assert (H1 : extract_json
                 (Json.text "Sure! [{'question': 'Q', 'options': []}, 7]")
               = Some [JObj [("question", JStr "Q"); ("options", JArr [])];
                       JInt 7]) by (vm_compute; reflexivity).
  assert (H2 : extract_json "I cannot help with that." = None)
    by (vm_compute; reflexivity).
  split; [exact H1|]. split.
  - exact (proj1 (proj1 (generate_quiz_commits_nonempty _ session_one)
                    _ _ H1)).
  - split; [exact H2|].
    exact (proj1 (proj2 (generate_quiz_commits_nonempty
                           "I cannot help with that." session_one)
                    (or_introl H2))).
Defined.

(** C3, as stated, fails: a reply with one question that has two options
    is committed, though it is not a quiz of the shape of the
    specification. *)
Lemma generate_quiz_commits_misshapen :
  spec_valid_quiz [mcq "Q" ["A) w"; "B) x"]] = false
  /\ generate_quiz
       (Json.text "[{'question': 'Q', 'options': ['A) w', 'B) x']}]")
       initial_session
     = ({| quiz_data := Some [mcq "Q" ["A) w"; "B) x"]];
           user_answers := [EmptyString] |},
        QuizCommitted).
Proof. split; vm_compute; reflexivity. Qed.

(* ================================================================== *)
(** * Quiz session: the answer key *)
(* ================================================================== *)

Lemma comprehension_ok {A B : Type} (f : A -> result B) (l : list A)
    (bs : list B) :
  comprehension f l = Ok bs <-> Forall2 (fun a b => f a = Ok b) l bs.
Proof.
  revert bs. induction l as [|a l IH]; intros bs; simpl.
  - split.
    + intros H. injection H as <-. constructor.
    + intros H. inversion H. reflexivity.
  - destruct (f a) as [b|e] eqn:Ea.
    + destruct (comprehension f l) as [bs'|e] eqn:El.
      * split.
        -- intros H. injection H as <-. constructor; [exact Ea|].
           now apply IH.
        -- intros H. inversion H as [|? b0 ? bs0 Hb Hl]; subst.
           rewrite Ea in Hb. injection Hb as <-.
           apply IH in Hl. now injection Hl as <-.
      * split; [discriminate|].
        intros H. inversion H as [|? b0 ? bs0 Hb Hl]; subst.
        apply IH in Hl. discriminate.
    + split; [discriminate|].
      intros H. inversion H as [|? b0 ? bs0 Hb Hl]; subst. congruence.
Qed.

Lemma comprehension_first_value_single_key (kvs : list (string * json)) :
  comprehension first_value (map single_key kvs) = Ok (map snd kvs).
Proof.
  induction kvs as [|[k v] kvs IH]; simpl; [reflexivity|]. now rewrite IH.
Qed.

Lemma normalize_key_tokens (tokens : list string) :
  normalize_key (map JStr tokens)
  = map (fun t => normalize_answer
                    (PyStr.remove_char "." (PyStr.remove_char ")" t)))
        tokens.
Proof. unfold normalize_key. now rewrite map_map. Qed.

(** C8. An answer key that is a sequence of single-key mappings is flattened
    to the values of the mappings, in sequence order, and the flattened
    sequence is what is normalized; when the values are text tokens each
    letter is the normalized token.  The extracted key
    [[{"1":"B"}, {"2":"A"}]] gives the letters B, A, against which the
    answers are then graded. *)
Theorem key_letters_single_key_mappings :
  (forall (kv : string * json) (kvs : list (string * json)),
      flatten_answers (map single_key (kv :: kvs)) = Ok (map snd (kv :: kvs))
      /\ key_letters (map single_key (kv :: kvs))
         = Ok (normalize_key (map snd (kv :: kvs))))
  /\ (forall (kt : string * string) (kts : list (string * string)),
         key_letters (map (fun p => single_key (fst p, JStr (snd p)))
                          (kt :: kts))
         = Ok (map (fun p => normalize_answer
                               (PyStr.remove_char "."
                                  (PyStr.remove_char ")" (snd p))))
                   (kt :: kts)))
  /\ extract_json (Json.text "[{'1':'B'}, {'2':'A'}]")
     = Some [JObj [("1", JStr "B")]; JObj [("2", JStr "A")]]
  /\ key_letters [JObj [("1", JStr "B")]; JObj [("2", JStr "A")]]
     = Ok ["B"; "A"]
  /\ submit_quiz (Json.text "[{'1':'B'}, {'2':'A'}]") session_two
     = (session_two,
        Graded [{| number := 1; question := "Q1"; outcome := Wrong "A" "B" |};
                {| number := 2; question := "Q2"; outcome := Wrong "B" "A" |}]
               0 2).
Proof.
  assert (F : forall kv kvs,
             flatten_answers (map single_key (kv :: kvs))
             = Ok (map snd (kv :: kvs))).
  { intros kv kvs. unfold flatten_answers.
    cbn [map single_key is_dict]. fold (single_key kv).
    exact (comprehension_first_value_single_key (kv :: kvs)). }
  split; [|split; [|split; [|split]]].
  - intros kv kvs. split; [apply F|]. unfold key_letters. now rewrite F.
  - intros kt kts. unfold key_letters.
    rewrite <- (map_map (fun p : string * string => (fst p, JStr (snd p)))
                        single_key).
    change (map (fun p : string * string => (fst p, JStr (snd p)))
                (kt :: kts))
      with ((fst kt, JStr (snd kt))
            :: map (fun p : string * string => (fst p, JStr (snd p))) kts).
    rewrite F. f_equal.
    change ((fst kt, JStr (snd kt))
            :: map (fun p : string * string => (fst p, JStr (snd p))) kts)
      with (map (fun p : string * string => (fst p, JStr (snd p)))
                (kt :: kts)).
    unfold normalize_key. rewrite !map_map. apply map_ext.
    intros p. reflexivity.
  - vm_compute. reflexivity.
  - vm_compute. reflexivity.
  - vm_compute. reflexivity.
Qed.

(** C10, as the code has it.  Whether the key is flattened depends on its
    first element alone.  If the first element is a mapping and every
    element is a mapping with a first value, every element is replaced by
    its first value, and no other list is ever returned for a key whose
    first element is a mapping.  If the first element is not a mapping the
    key is left as it is, whatever the later elements are. *)
Theorem flatten_answers_decided_by_first (first : json) (rest : list json) :
  (is_dict first = true ->
   Forall nonempty_dict (first :: rest) ->
   exists flat,
     flatten_answers (first :: rest) = Ok flat
     /\ Forall2 (fun a v => first_value a = Ok v) (first :: rest) flat)
  /\ (is_dict first = true ->
      forall flat,
        flatten_answers (first :: rest) = Ok flat ->
        Forall2 (fun a v => first_value a = Ok v) (first :: rest) flat)
  /\ (is_dict first = false ->
      flatten_answers (first :: rest) = Ok (first :: rest)).
Proof.
  unfold flatten_answers. split; [|split].
  - intros -> Hall.
    assert (E : exists flat,
               Forall2 (fun a v => first_value a = Ok v) (first :: rest) flat).
    { clear -Hall. induction Hall as [|a l (k & v & m & ->) _ [flat IH]].
      - exists []. constructor.
      - exists (v :: flat). constructor; [reflexivity | exact IH]. }
    destruct E as [flat E]. exists flat. split; [|exact E].
    now apply comprehension_ok.
  - intros -> flat H. now apply comprehension_ok.
  - intros ->. reflexivity.
Qed.

Lemma flatten_answers_decided_by_first_witness :
  (exists flat,
      flatten_answers [JObj [("1", JStr "B"); ("note", JNull)];
                       JObj [("2", JInt 3)]] = Ok flat
      /\ Forall2 (fun a v => first_value a = Ok v)
           [JObj [("1", JStr "B"); ("note", JNull)]; JObj [("2", JInt 3)]]
           flat)
  /\ flatten_answers [JStr "B"; JObj [("2", JStr "A")]]
     = Ok [JStr "B"; JObj [("2", JStr "A")]].
Proof.
  split.
  - apply (proj1 (flatten_answers_decided_by_first
                    (JObj [("1", JStr "B"); ("note", JNull)])
                    [JObj [("2", JInt 3)]])); [reflexivity|].
    repeat constructor; unfold nonempty_dict; eauto.
  - exact (proj2 (proj2 (flatten_answers_decided_by_first
                           (JStr "B") [JObj [("2", JStr "A")]])) eq_refl).
Defined.

(** C10, as stated, fails: the first element is a mapping and a later one
    is not, or is an empty mapping, and no flattened key is produced: the
    comprehension raises, and so does the grading step. *)
Lemma flatten_answers_mixed_key_raises :
  is_dict (JObj [("1", JStr "B")]) = true
  /\ flatten_answers [JObj [("1", JStr "B")]; JStr "A"] = Raise AttributeError
  /\ flatten_answers [JObj [("1", JStr "B")]; JObj []] = Raise IndexError
  /\ submit_quiz (Json.text "[{'1':'B'}, 'A']") session_two
     = (session_two, Crashed [] AttributeError).
Proof. repeat split; vm_compute; reflexivity. Qed.

(* ================================================================== *)
(** * Quiz session: grading *)
(* ================================================================== *)

Lemma show_results_all (rows : list (string * string * json)) :
  forall idx shown,
    show_results idx rows = (shown, None) ->
    map outcome shown
    = map (fun p => classify (fst p) (snd p)) (map fst rows).
Proof.
  induction rows as [|[[ua ca] q] rows IH]; intros idx shown; simpl.
  - intros H. now injection H as <-.
  - destruct (getitem q "question"); [|discriminate].
    destruct (show_results (S idx) rows) as [shown' e] eqn:E.
    intros H. injection H as <- ->. simpl. f_equal. exact (IH _ _ E).
Qed.

Lemma map_fst_combine {A B : Type} (l : list A) (l' : list B) :
  map fst (combine l l') = firstn (List.length l') l.
Proof.
  revert l'. induction l as [|a l IH]; intros [|b l']; simpl;
    try reflexivity.
  now rewrite IH.
Qed.

Lemma calculate_score_correct_lines (us cs : list string) :
  calculate_score us cs
  = List.length (filter is_correct
                   (map (fun p => classify (fst p) (snd p)) (combine us cs))).
Proof.
  unfold calculate_score, classify.
  induction (combine us cs) as [|[u c] l IH]; simpl; [reflexivity|].
  rewrite IH. destruct (String.eqb u c); reflexivity.
Qed.

(** C5, as the code has it.  A line of the results is [Correct] exactly
    when the normalized letter of the user equals the normalized letter of
    the key, also when both are empty.  Otherwise it is [Wrong], with
    "No answer" shown for an empty user letter; that is a matter of
    message only.  The lines of a graded quiz are the verdicts of the
    aligned pairs of letters, and, the answers being as many as the
    questions, the score is the number of [Correct] lines. *)
Theorem classify_correct_iff_equal :
  (forall ua ca, classify ua ca = Correct ua <-> ua = ca)
  /\ (forall ua ca,
         ua <> ca ->
         classify ua ca
         = Wrong (match ua with EmptyString => "No answer" | _ => ua end) ca)
  /\ (forall ai_answers s shown score total,
         submit_quiz ai_answers s = (s, Graded shown score total) ->
         exists correct_answers key quiz,
           extract_json ai_answers = Some correct_answers
           /\ key_letters correct_answers = Ok key
           /\ quiz_data s = Some quiz
           /\ total = List.length key
           /\ score = calculate_score (map normalize_answer (user_answers s))
                                      key
           /\ map outcome shown
              = map (fun p => classify (fst p) (snd p))
                    (firstn (List.length quiz)
                       (combine (map normalize_answer (user_answers s)) key))
           /\ (List.length (user_answers s) = List.length quiz ->
               score = List.length (filter is_correct (map outcome shown)))).
Proof.
  split; [|split].
  - intros ua ca. unfold classify.
    destruct (String.eqb ua ca) eqn:E.
    + apply String.eqb_eq in E. tauto.
    + apply String.eqb_neq in E. split; [discriminate | tauto].
  - intros ua ca H. unfold classify, or_no_answer.
    apply String.eqb_neq in H. now rewrite H.
  - intros ai_answers s shown score total. unfold submit_quiz.
    destruct (extract_json ai_answers) as [[|a l]|]; try discriminate.
    destruct (key_letters (a :: l)) as [key|] eqn:Ek; [|discriminate].
    destruct (quiz_data s) as [quiz|] eqn:Eq; [|discriminate].
    destruct (show_results _ _) as [shown' [e|]] eqn:E; [discriminate|].
    intros H. injection H as <- <- <-.
    exists (a :: l), key, quiz.
    apply show_results_all in E. rewrite map_fst_combine in E.
    split; [reflexivity|]. split; [exact Ek|]. split; [reflexivity|].
    split; [reflexivity|]. split; [reflexivity|]. split; [exact E|].
    intros Hlen. rewrite E, firstn_all2.
    + apply calculate_score_correct_lines.
    + rewrite length_combine, length_map, Hlen. apply Nat.le_min_l.
Qed.

Lemma classify_correct_iff_equal_witness :
  classify "B" "B" = Correct "B"
  /\ classify "" "C" = Wrong "No answer" "C"
  /\ classify "A" "C" = Wrong "A" "C".
Proof.
  split; [|split].
  - exact (proj2 (proj1 classify_correct_iff_equal "B" "B") eq_refl).
  - apply (proj1 (proj2 classify_correct_iff_equal) "" "C"). discriminate.
  - apply (proj1 (proj2 classify_correct_iff_equal) "A" "C"). discriminate.
Defined.

(** C5, as stated, fails: with both letters empty the line is [Correct],
    and it counts in the score. *)
Lemma submit_quiz_empty_letters_correct :
  normalize_answer "1) w" = EmptyString
  /\ key_letters [JStr "?"] = Ok [EmptyString]
  /\ classify EmptyString EmptyString = Correct EmptyString
  /\ submit_quiz (Json.text "Key: ['?']") session_one
     = (session_one,
        Graded [{| number := 1; question := "Q";
                   outcome := Correct EmptyString |}] 1 1).
Proof. repeat split; vm_compute; reflexivity. Qed.

(* ================================================================== *)
(** * More on the text normalizer *)
(* ================================================================== *)

Section Tidy.

Import PyStr.

Lemma sub_ws_run_tidy (u : string) :
  forall b,
    rstrip u = u -> (b = true -> u <> EmptyString) ->
    tidy_from b (sub_ws_run b u) = true.
Proof.
  induction u as [|c u IH]; intros b Hr Hb.
  - destruct b; [now specialize (Hb eq_refl) | reflexivity].
  - apply rstrip_cons_fixed in Hr as [Hr Hc].
    cbn [sub_ws_run]. destruct (isspace c) eqn:W.
    + destruct b.
      * apply IH; auto.
      * cbn [tidy_from]. change (isspace " ") with true. cbn [andb negb].
        rewrite Ascii.eqb_refl. apply IH; auto.
    + cbn [tidy_from]. rewrite W. apply IH; [exact Hr | discriminate].
Qed.

Lemma tidy_from_sub_ws_run (s : string) :
  forall b, tidy_from b s = true -> sub_ws_run b s = s.
Proof.
  induction s as [|c s IH]; intros b; [reflexivity|].
  cbn [tidy_from sub_ws_run]. destruct (isspace c).
  - destruct b; cbn [negb andb]; [rewrite andb_false_r; discriminate|].
    rewrite andb_true_r. intros H. apply andb_prop in H as [Hc H].
    apply Ascii.eqb_eq in Hc as ->. now rewrite (IH true H).
  - intros H. now rewrite (IH false H).
Qed.

Lemma tidy_from_rstrip (s : string) :
  forall b, tidy_from b s = true -> rstrip s = s.
Proof.
  induction s as [|c s IH]; intros b; [reflexivity|].
  cbn [tidy_from rstrip]. destruct (isspace c) eqn:W.
  - intros H. apply andb_prop in H as [_ H]. rewrite (IH true H).
    destruct s; [discriminate H | reflexivity].
  - intros H. rewrite (IH false H). now destruct s.
Qed.

Lemma tidy_from_true_head (s : string) :
  tidy_from true s = true ->
  exists c r, s = String c r /\ isspace c = false.
Proof.
  destruct s as [|c r]; [discriminate|]. cbn [tidy_from].
  destruct (isspace c) eqn:W; [|eauto].
  cbn [negb andb]. rewrite andb_false_r. discriminate.
Qed.

Lemma clean_text_is_tidy (text : string) : tidy (clean_text text) = true.
Proof.
  unfold clean_text, re_sub_ws.
  pose proof (strip_head text) as Hh. pose proof (strip_rstrip text) as Hr.
  destruct (strip text) as [|c u]; [reflexivity|].
  apply rstrip_cons_fixed in Hr as [Hr _].
  cbn [sub_ws_run]. rewrite Hh. cbn [tidy tidy_from]. rewrite Hh.
  apply sub_ws_run_tidy; [exact Hr | discriminate].
Qed.

Lemma tidy_clean_text (s : string) : tidy s = true -> clean_text s = s.
Proof.
  destruct s as [|c r]; [reflexivity|]. cbn [tidy]. intros H.
  unfold clean_text, strip, re_sub_ws.
  destruct (tidy_from_true_head _ H) as (c' & r' & E & W).
  injection E as <- <-.
  rewrite (lstrip_fixed (String c r)) by exact W.
  rewrite (tidy_from_rstrip _ _ H).
  pose proof (tidy_from_sub_ws_run _ _ H) as S1.
  cbn [sub_ws_run] in S1 |- *. rewrite W in S1 |- *. exact S1.
Qed.

Lemma visible_lstrip (s : string) : visible (lstrip s) = visible s.
Proof.
  induction s as [|c s IH]; [reflexivity|]. cbn [lstrip visible].
  destruct (isspace c) eqn:W; [exact IH|]. cbn [visible]. now rewrite W.
Qed.

Lemma visible_rstrip (s : string) : visible (rstrip s) = visible s.
Proof.
  induction s as [|c s IH]; [reflexivity|]. cbn [rstrip visible].
  destruct (rstrip s) as [|d r] eqn:E.
  - cbn [visible] in IH. rewrite <- IH.
    destruct (isspace c) eqn:W; [reflexivity|]. cbn [visible]. now rewrite W.
  - cbn [visible]. rewrite <- IH. reflexivity.
Qed.

Lemma visible_sub_ws_run (s : string) (b : bool) :
  visible (sub_ws_run b s) = visible s.
Proof.
  revert b. induction s as [|c s IH]; intros b; [reflexivity|].
  cbn [sub_ws_run visible]. destruct (isspace c) eqn:W.
  - destruct b; [apply IH|].
    cbn [visible]. change (isspace " ") with true. cbn iota. apply IH.
  - cbn [visible]. rewrite W. now rewrite IH.
Qed.

Lemma visible_clean_text (text : string) :
  visible (clean_text text) = visible text.
Proof.
  unfold clean_text, re_sub_ws, strip.
  now rewrite visible_sub_ws_run, visible_rstrip, visible_lstrip.
Qed.

Lemma tidy_visible_empty (s : string) :
  tidy s = true -> visible s = EmptyString -> s = EmptyString.
Proof.
  destruct s as [|c r]; [reflexivity|]. cbn [tidy]. intros H.
  destruct (tidy_from_true_head _ H) as (c' & r' & E & W).
  injection E as <- <-. cbn [visible]. rewrite W. discriminate.
Qed.

Lemma visible_empty_strip (s : string) :
  visible s = EmptyString <-> strip s = EmptyString.
Proof.
  split.
  - intros H. pose proof (strip_head s) as Hh.
    assert (V : visible (strip s) = EmptyString)
      by (unfold strip; now rewrite visible_rstrip, visible_lstrip).
    destruct (strip s) as [|c r]; [reflexivity|].
    cbn [visible] in V. rewrite Hh in V. discriminate.
  - intros H. unfold strip in H.
    rewrite <- visible_lstrip, <- visible_rstrip. now rewrite H.
Qed.

End Tidy.

(** X1.  The text [clean_text] returns is tidy: it has no whitespace at
    either end, and its only whitespace characters are single spaces, never
    two in a row, so no tab or line break survives.  Tidy texts are exactly
    the texts that [clean_text] leaves as they are. *)
Theorem clean_text_tidy_fixed_points :
  (forall text, tidy (clean_text text) = true)
  /\ (forall s, clean_text s = s <-> tidy s = true).
Proof.
  split; [exact clean_text_is_tidy|].
  intros s. split.
  - intros H. rewrite <- H. apply clean_text_is_tidy.
  - apply tidy_clean_text.
Qed.

Lemma clean_text_tidy_fixed_points_witness :
  tidy "two words" = true /\ clean_text "two words" = "two words".
Proof.
  split; [reflexivity|].
  apply (proj2 (proj2 clean_text_tidy_fixed_points "two words")).
  reflexivity.
Defined.

(** X2.  [clean_text] changes whitespace only: the characters that are not
    whitespace are the same, in the same order, before and after.  The
    result is empty exactly when the text has no such character. *)
Theorem clean_text_keeps_visible (text : string) :
  visible (clean_text text) = visible text
  /\ (clean_text text = EmptyString <-> visible text = EmptyString).
Proof.
  split; [apply visible_clean_text|]. split.
  - intros H. rewrite <- visible_clean_text, H. reflexivity.
  - intros H. apply tidy_visible_empty; [apply clean_text_is_tidy|].
    now rewrite visible_clean_text.
Qed.

Lemma clean_text_keeps_visible_witness :
  visible "  	 " = EmptyString /\ clean_text "  	 " = EmptyString.
Proof.
  split; [reflexivity|].
  apply (proj2 (proj2 (clean_text_keeps_visible "  	 "))). reflexivity.
Defined.

Section Letters.

Import PyStr.

Lemma is_AD_facts (c : ascii) :
  is_AD c = true ->
  isspace c = false
  /\ Ascii.eqb c ")" = false /\ Ascii.eqb c "." = false
  /\ is_AD (upper c) = true /\ upper (upper c) = upper c
  /\ In (String (upper c) EmptyString) ["A"; "B"; "C"; "D"].
Proof.
  destruct c as [[] [] [] [] [] [] [] []]; intros H;
    try discriminate H; repeat split; try reflexivity; simpl; tauto.
Qed.

Lemma strip_keeps_head (c : ascii) (rest : string) :
  isspace c = false -> exists r, strip (String c rest) = String c r.
Proof.
  intros W. unfold strip. cbn [lstrip]. rewrite W.
  apply rstrip_keeps_head, W.
Qed.

Lemma strip_skips_space (w : ascii) (s : string) :
  isspace w = true -> strip (String w s) = strip s.
Proof. intros W. unfold strip. cbn [lstrip]. now rewrite W. Qed.

Lemma normalize_answer_letter (c : ascii) (rest : string) :
  is_AD c = true ->
  normalize_answer (String c rest) = String (upper c) EmptyString.
Proof.
  intros H. destruct (is_AD_facts c H) as (W & _).
  unfold normalize_answer.
  destruct (strip_keeps_head c rest W) as [r ->].
  cbn [re_match_AD]. now rewrite H.
Qed.

Lemma normalize_answer_other (c : ascii) (rest : string) :
  isspace c = false -> is_AD c = false ->
  normalize_answer (String c rest) = EmptyString.
Proof.
  intros W H. unfold normalize_answer.
  destruct (strip_keeps_head c rest W) as [r ->].
  cbn [re_match_AD]. now rewrite H.
Qed.

Lemma normalize_answer_in_grades (answer : string) :
  In (normalize_answer answer) grades.
Proof.
  unfold normalize_answer, grades.
  destruct answer as [|a rest]; [simpl; auto|].
  destruct (strip (String a rest)) as [|c r]; [simpl; auto|].
  cbn [re_match_AD]. destruct (is_AD c) eqn:H; [|simpl; auto].
  right. apply (is_AD_facts c H).
Qed.

End Letters.

(** X3.  [normalize_answer] returns one of five texts, the empty text or a
    single capital letter A-D, and it leaves each of them as it is:
    normalizing twice is normalizing once. *)
Theorem normalize_answer_grades (answer : string) :
  In (normalize_answer answer) grades
  /\ normalize_answer (normalize_answer answer) = normalize_answer answer.
Proof.
  split; [apply normalize_answer_in_grades|].
  pose proof (normalize_answer_in_grades answer) as H.
  unfold grades in H. simpl in H.
  repeat (destruct H as [<-|H]; [reflexivity|]). contradiction.
Qed.

(** X4.  Only the first character after the leading whitespace counts: a
    text that starts with a letter A-D, in either case, is normalized to
    that letter in upper case whatever follows it, a text that starts with
    any other non-blank character is normalized to the empty text, and
    whitespace in front of a text changes nothing. *)
Theorem normalize_answer_first_character :
  (forall c rest,
      PyStr.is_AD c = true ->
      normalize_answer (String c rest) = String (PyStr.upper c) EmptyString)
  /\ (forall c rest,
         PyStr.isspace c = false -> PyStr.is_AD c = false ->
         normalize_answer (String c rest) = EmptyString)
  /\ (forall w s,
         PyStr.isspace w = true ->
         normalize_answer (String w s) = normalize_answer s).
Proof.
  split; [exact normalize_answer_letter|].
  split; [exact normalize_answer_other|].
  intros w s W. unfold normalize_answer.
  rewrite (strip_skips_space w s W).
  destruct s as [|c r]; reflexivity.
Qed.

Lemma normalize_answer_first_character_witness :
  normalize_answer "c) Paris" = "C"
  /\ normalize_answer "3) Paris" = EmptyString
  /\ normalize_answer " B" = normalize_answer "B".
Proof.
  split; [|split].
  - apply (proj1 normalize_answer_first_character "c"%char ") Paris").
    reflexivity.
  - apply (proj1 (proj2 normalize_answer_first_character) "3"%char ") Paris");
      reflexivity.
  - apply (proj2 (proj2 normalize_answer_first_character) " "%char "B").
    reflexivity.
Defined.

(* ================================================================== *)
(** * More on the scorer *)
(* ================================================================== *)

Lemma calculate_score_cons (u c : string) (us cs : list string) :
  calculate_score (u :: us) (c :: cs)
  = (if String.eqb u c then 1 else 0) + calculate_score us cs.
Proof. reflexivity. Qed.

Lemma calculate_score_le (us cs : list string) :
  calculate_score us cs <= Nat.min (List.length us) (List.length cs).
Proof.
  revert cs. induction us as [|u us IH]; intros [|c cs];
    try (cbn; lia).
  rewrite calculate_score_cons. specialize (IH cs).
  cbn [List.length Nat.min]. destruct (String.eqb u c); lia.
Qed.

(** X5.  The score equals the length of the key, which is the test of line
    253 for the perfect result, exactly when every letter of the key is
    matched: the key is the beginning of the user's letters.  For letters
    as many as the key this says that the two sequences are the same. *)
Theorem calculate_score_perfect (us cs : list string) :
  (calculate_score us cs = List.length cs <->
   firstn (List.length cs) us = cs)
  /\ (List.length us = List.length cs ->
      (calculate_score us cs = List.length cs <-> us = cs)).
Proof.
  assert (P : forall cs us,
             calculate_score us cs = List.length cs <->
             firstn (List.length cs) us = cs).
  { clear. induction cs as [|c cs IH]; intros us.
    - destruct us; split; reflexivity.
    - destruct us as [|u us].
      + split; discriminate.
      + rewrite calculate_score_cons. cbn [List.length firstn].
        pose proof (calculate_score_le us cs) as Hle.
        destruct (String.eqb u c) eqn:E.
        * apply String.eqb_eq in E as ->. split.
          -- intros H. f_equal. apply IH. lia.
          -- intros H. injection H as H. apply IH in H. lia.
        * apply String.eqb_neq in E. split.
          -- intros H. lia.
          -- intros H. injection H as H _. contradiction. }
  split; [apply P|].
  intros Hlen. rewrite P, <- Hlen, firstn_all. reflexivity.
Qed.

Lemma calculate_score_perfect_witness :
  List.length ["A"; "C"] = List.length ["A"; "C"]
  /\ calculate_score ["A"; "C"] ["A"; "C"] = 2.
Proof.
  split; [reflexivity|].
  apply (proj2 (proj2 (calculate_score_perfect ["A"; "C"] ["A"; "C"])
                  eq_refl)).
  reflexivity.
Defined.

(** X6.  The score does not depend on which sequence is the user's and
    which is the key, and it adds up over parts: for two beginnings of the
    same length, the score of the whole is the score of the beginnings plus
    the score of the rests. *)
Theorem calculate_score_symmetric_additive :
  (forall us cs, calculate_score us cs = calculate_score cs us)
  /\ (forall us1 cs1 us2 cs2,
         List.length us1 = List.length cs1 ->
         calculate_score (us1 ++ us2) (cs1 ++ cs2)
         = calculate_score us1 cs1 + calculate_score us2 cs2).
Proof.
  split.
  - induction us as [|u us IH]; intros [|c cs]; try reflexivity.
    rewrite !calculate_score_cons, IH, (String.eqb_sym u c). reflexivity.
  - induction us1 as [|u us1 IH]; intros [|c cs1] us2 cs2 H;
      try discriminate; [reflexivity|].
    cbn [app]. rewrite !calculate_score_cons, IH by (injection H; auto).
    lia.
Qed.

Lemma calculate_score_symmetric_additive_witness :
  calculate_score (["A"; "B"] ++ ["C"]) (["A"; "D"] ++ ["C"])
  = calculate_score ["A"; "B"] ["A"; "D"] + calculate_score ["C"] ["C"].
Proof.
  apply (proj2 calculate_score_symmetric_additive). reflexivity.
Defined.

(* ================================================================== *)
(** * More on the structured extractor *)
(* ================================================================== *)

Lemma after_first_lbracket_suffix (s r : string) :
  after_first_lbracket s = Some r ->
  Py.contains "]" s = false -> Py.contains "]" r = false.
Proof.
  induction s as [|c s IH]; cbn [after_first_lbracket Py.contains];
    [discriminate|].
  destruct (Ascii.eqb c "[").
  - intros H. injection H as <-. intros H.
    now apply orb_false_elim in H as [_ H].
  - intros H H'. apply orb_false_elim in H' as [_ H']. auto.
Qed.

Lemma after_first_lbracket_absent (s : string) :
  Py.contains "[" s = false -> after_first_lbracket s = None.
Proof.
  induction s as [|c s IH]; cbn [after_first_lbracket Py.contains];
    [reflexivity|].
  rewrite (Ascii.eqb_sym "[" c). destruct (Ascii.eqb c "["); [discriminate|].
  exact IH.
Qed.

(** X7.  A reply without an opening bracket, or without a closing one,
    yields no value: [extract_json] returns [None] for it, as it does for
    the empty reply. *)
Theorem extract_json_needs_brackets (ai_response : string) :
  Py.contains "[" ai_response = false \/ Py.contains "]" ai_response = false ->
  extract_json ai_response = None.
Proof.
  intros H. apply extract_json_none. left. unfold re_search_array.
  destruct (after_first_lbracket ai_response) as [r|] eqn:E; [|reflexivity].
  destruct H as [H|H].
  - rewrite (after_first_lbracket_absent _ H) in E. discriminate.
  - now rewrite (upto_last_rbracket_none _ (after_first_lbracket_suffix _ _ E H)).
Qed.

Lemma extract_json_needs_brackets_witness :
  extract_json "The answers are [A, B, C" = None.
Proof.
  apply extract_json_needs_brackets. right. reflexivity.
Defined.

(** X8.  What [extract_json] returns is the list that [json.loads] reads off
    one stretch of the reply, from its first ['['] to its last [']'], and
    prose without brackets around that stretch changes nothing, whether the
    stretch can be read or not. *)
Theorem extract_json_first_to_last_bracket :
  (forall ai_response items,
      extract_json ai_response = Some items ->
      exists pre body suf,
        ai_response = (pre ++ "[" ++ body ++ "]" ++ suf)%string
        /\ Py.contains "[" pre = false
        /\ Py.contains "]" suf = false
        /\ Json.loads ("[" ++ body ++ "]")%string = Some (JArr items))
  /\ (forall pre body suf,
         Py.contains "[" pre = false ->
         Py.contains "]" suf = false ->
         extract_json (pre ++ "[" ++ body ++ "]" ++ suf)%string
         = extract_json ("[" ++ body ++ "]")%string).
Proof.
  split.
  - intros s items H. apply extract_json_some in H as (m & Hm & Hl).
    apply re_search_array_match in Hm as (pre & body & suf & -> & -> & Hp & Hs).
    exists pre, body, suf. auto.
  - intros pre body suf Hp Hs. unfold extract_json.
    change (pre ++ "[" ++ body ++ "]" ++ suf)%string
      with (pre ++ String "[" (body ++ String "]" suf))%string.
    rewrite (re_search_array_embedded pre body suf Hp Hs).
    change ("[" ++ body ++ "]")%string
      with (EmptyString ++ String "[" (body ++ String "]" EmptyString))%string.
    now rewrite (re_search_array_embedded EmptyString body EmptyString).
Qed.

Lemma extract_json_first_to_last_bracket_witness :
  extract_json ("Sorry: " ++ "[" ++ "1, 2," ++ "]" ++ " (draft)")%string
  = extract_json ("[" ++ "1, 2," ++ "]")%string.
Proof.
  apply (proj2 extract_json_first_to_last_bracket); reflexivity.
Defined.

(* ================================================================== *)
(** * More on the answer key *)
(* ================================================================== *)

Lemma comprehension_length {A B : Type} (f : A -> result B) (l : list A)
    (bs : list B) :
  comprehension f l = Ok bs -> List.length bs = List.length l.
Proof.
  intros H. apply comprehension_ok in H.
  induction H; simpl; auto.
Qed.

Lemma flatten_answers_length (key flat : list json) :
  flatten_answers key = Ok flat -> List.length flat = List.length key.
Proof.
  unfold flatten_answers. destruct key as [|a l]; [discriminate|].
  destruct (is_dict a).
  - apply comprehension_length.
  - intros H. now injection H as <-.
Qed.

(** X9.  When the letters of the key can be computed there is one letter
    for each element of the extracted list, the empty text or a capital
    letter A-D, so the total shown with the score is the length of the
    extracted list. *)
Theorem key_letters_one_per_element (correct_answers : list json)
    (letters : list string) :
  key_letters correct_answers = Ok letters ->
  List.length letters = List.length correct_answers
  /\ Forall (fun l => In l grades) letters.
Proof.
  unfold key_letters.
  destruct (flatten_answers correct_answers) as [flat|] eqn:E;
    [|discriminate].
  intros H. injection H as <-. unfold normalize_key. split.
  - rewrite length_map. now apply flatten_answers_length.
  - apply Forall_map, Forall_forall. intros a _.
    apply normalize_answer_in_grades.
Qed.

Lemma key_letters_one_per_element_witness :
  List.length ["A"; ""; "C"] = List.length [JStr "a)"; JNull; JStr "C."]
  /\ Forall (fun l => In l grades) ["A"; ""; "C"].
Proof.
  apply (key_letters_one_per_element [JStr "a)"; JNull; JStr "C."]).
  reflexivity.
Defined.

Section KeyItems.

Import PyStr.

Lemma remove_char_head (old c : ascii) (rest : string) :
  Ascii.eqb c old = false ->
  remove_char old (String c rest) = String c (remove_char old rest).
Proof. intros H. cbn [remove_char]. now rewrite H. Qed.



End KeyItems.




(* ================================================================== *)
(** * More on grading *)
(* ================================================================== *)

Lemma show_results_showable (rows : list (string * string * json)) :
  Forall (fun row => exists text, getitem (snd row) "question" = Ok text)
         rows ->
  forall idx,
  exists shown,
    show_results idx rows = (shown, None)
    /\ map number shown = seq (S idx) (List.length rows).
Proof.
  induction 1 as [|[[ua ca] q] rows [text Hq] _ IH]; intros idx.
  - exists []. split; reflexivity.
  - destruct (IH (S idx)) as (shown & Hs & Hn).
    cbn [show_results snd] in Hq |- *. rewrite Hq, Hs.
    eexists. split; [reflexivity|]. cbn [map number List.length seq].
    now rewrite Hn.
Qed.

Lemma Forall_combine_r {A B : Type} (P : B -> Prop) (l : list A)
    (l' : list B) :
  Forall P l' -> Forall (fun p => P (snd p)) (combine l l').
Proof.
  intros H. apply Forall_forall. intros [a b] Hin.
  apply in_combine_r in Hin. rewrite Forall_forall in H. now apply H.
Qed.

(** X24.  A selected option and a key token that both start with a letter
    A-D are graded on these letters alone, whatever their case and whatever
    follows them, a closing parenthesis or a period included: the line is
    [Correct] when the two letters are the same up to case and [Wrong],
    showing both letters in upper case, otherwise. *)
Theorem classify_on_leading_letters (c1 c2 : ascii) (rest1 rest2 : string) :
  PyStr.is_AD c1 = true -> PyStr.is_AD c2 = true ->
  let ua := normalize_answer (String c1 rest1) in
  let ca := nth 0 (normalize_key [JStr (String c2 rest2)]) EmptyString in
  ua = String (PyStr.upper c1) EmptyString
  /\ ca = String (PyStr.upper c2) EmptyString
  /\ (PyStr.upper c1 = PyStr.upper c2 -> classify ua ca = Correct ua)
  /\ (PyStr.upper c1 <> PyStr.upper c2 -> classify ua ca = Wrong ua ca).
Proof.
  intros H1 H2 ua ca.
  assert (Ha : ua = String (PyStr.upper c1) EmptyString)
    by (apply normalize_answer_letter, H1).
  assert (Hc : ca = String (PyStr.upper c2) EmptyString).
  { subst ca. unfold normalize_key. cbn [map nth Py.str].
    destruct (is_AD_facts c2 H2) as (_ & F1 & F2 & _).
    rewrite (remove_char_head ")" c2 rest2 F1).
    rewrite (remove_char_head "." c2 _ F2).
    apply normalize_answer_letter, H2. }
  split; [exact Ha|]. split; [exact Hc|]. rewrite Ha, Hc. unfold classify.
  split.
  - intros ->. now rewrite String.eqb_refl.
  - intros Hne.
    assert (E : String.eqb (String (PyStr.upper c1) EmptyString)
                           (String (PyStr.upper c2) EmptyString) = false).
    { apply String.eqb_neq. intros E. injection E as E. contradiction. }
    rewrite E. unfold or_no_answer. reflexivity.
Qed.

Lemma classify_on_leading_letters_witness :
  classify (normalize_answer "B) mitosis")
           (nth 0 (normalize_key [JStr "b."]) EmptyString)
  = Correct (normalize_answer "B) mitosis").
Proof.
  apply (classify_on_leading_letters "B" "b" ") mitosis" "."); reflexivity.
Defined.

(* ================================================================== *)
(** * The question widgets *)
(* ================================================================== *)

Lemma list_assign_length (l : list string) :
  forall idx v l', list_assign l idx v = Some l' ->
                   List.length l' = List.length l.
Proof.
  induction l as [|x l IH]; intros [|idx] v l'; cbn [list_assign];
    try discriminate.
  - intros H. now injection H as <-.
  - destruct (list_assign l idx v) as [l''|] eqn:E; [|discriminate].
    intros H. injection H as <-. cbn [List.length]. f_equal. eauto.
Qed.

Lemma list_assign_app (pre : list string) (x v : string)
    (post : list string) :
  list_assign (pre ++ x :: post) (List.length pre) v
  = Some (pre ++ v :: post).
Proof.
  induction pre as [|p pre IH]; [reflexivity|].
  cbn [app List.length list_assign]. now rewrite IH.
Qed.

Lemma list_assign_in_range (l : list string) :
  forall idx v, idx < List.length l -> list_assign l idx v <> None.
Proof.
  induction l as [|x l IH]; intros [|idx] v; cbn [list_assign List.length];
    try lia; try discriminate.
  intros H. specialize (IH idx v). destruct (list_assign l idx v);
    [discriminate|]. apply IH. lia.
Qed.

Lemma render_questions_length radio (quiz : list json) :
  forall idx answers,
    List.length (fst (render_questions radio idx quiz answers))
    = List.length answers.
Proof.
  induction quiz as [|q quiz IH]; intros idx answers; [reflexivity|].
  cbn [render_questions]. unfold render_question.
  destruct (getitem q "question"); [|reflexivity].
  destruct (getitem q "options"); [|reflexivity].
  destruct (list_assign answers idx _) as [answers'|] eqn:E; [|reflexivity].
  rewrite IH. now apply list_assign_length in E.
Qed.

Lemma render_questions_in_range radio (quiz : list json) :
  forall idx answers,
    idx + List.length quiz <= List.length answers ->
    snd (render_questions radio idx quiz answers) <> Some IndexError.
Proof.
  induction quiz as [|q quiz IH]; intros idx answers Hlen; [discriminate|].
  cbn [render_questions List.length] in *. unfold render_question.
  destruct q as [| | | | | |members]; try discriminate.
  cbn [getitem].
  destruct (lookup "question" members); [|discriminate].
  destruct (lookup "options" members); [|discriminate].
  destruct (list_assign answers idx _) as [answers'|] eqn:E.
  - apply IH. apply list_assign_length in E. lia.
  - exfalso. apply (list_assign_in_range answers idx _) in E; [exact E|lia].
Qed.

Lemma render_questions_showable radio (quiz : list json) :
  Forall showable quiz ->
  forall pre mid post,
    List.length mid = List.length quiz ->
    render_questions radio (List.length pre) quiz (pre ++ mid ++ post)
    = (pre
       ++ map (fun iq => radio (fst iq) (options_of (snd iq)))
              (combine (seq (List.length pre) (List.length quiz)) quiz)
       ++ post, None).
Proof.
  induction 1 as [|q quiz (text & options & Hq & Ho) _ IH];
    intros pre mid post Hlen.
  - destruct mid; [reflexivity | discriminate].
  - destruct mid as [|m mid]; [discriminate|].
    cbn [render_questions]. unfold render_question.
    rewrite Hq, Ho. cbn [app]. rewrite list_assign_app.
    specialize (IH (pre ++ [radio (List.length pre) options]) mid post).
    rewrite <- !app_assoc, length_app in IH. cbn [app List.length] in IH.
    rewrite Nat.add_1_r in IH. rewrite IH by (injection Hlen; auto).
    cbn [List.length seq combine map fst snd]. unfold options_of at 2.
    now rewrite Ho.
Qed.

(** X12.  The loop of the question widgets on a quiz whose elements all
    have a [question] and [options], in a session with as many answers as
    questions: it does not raise, and it leaves in the session, for each
    question in order, what the widget of that question returned. *)
Theorem render_questions_records_selections radio (quiz : list json)
    (answers : list string) :
  Forall showable quiz ->
  List.length answers = List.length quiz ->
  render_questions radio 0 quiz answers
  = (map (fun iq => radio (fst iq) (options_of (snd iq)))
         (combine (seq 0 (List.length quiz)) quiz), None).
Proof.
  intros Hall Hlen.
  pose proof (render_questions_showable radio quiz Hall [] answers [] Hlen)
    as H.
  cbn [app List.length] in H. now rewrite !app_nil_r in H.
Qed.

Lemma render_questions_records_selections_witness :
  render_questions (fun idx options =>
                      match options with
                      | JArr (JStr first :: _) => first
                      | _ => EmptyString
                      end)
                   0 two_questions ["D) z"; ""]
  = (["A) w"; "A) w"], None).
Proof.
  assert (H : Forall showable two_questions)
    by (repeat constructor; eexists _, _; split; reflexivity).
  exact (render_questions_records_selections
           (fun idx options =>
              match options with
              | JArr (JStr first :: _) => first
              | _ => EmptyString
              end)
           two_questions ["D) z"; ""] H eq_refl).
Defined.

(** X13.  A question without [question] or without [options] stops the
    loop: the exception is the [KeyError] of the missing key, or
    [TypeError] when the element is not a mapping, the answers of the
    questions before it have been recorded and the others are untouched. *)
Theorem render_questions_stops_at_unshowable radio (good : list json)
    (bad : json) (rest : list json) (answers later : list string)
    (e : exn) :
  Forall showable good ->
  List.length answers = List.length good ->
  (getitem bad "question" = Raise e
   \/ (exists text, getitem bad "question" = Ok text)
      /\ getitem bad "options" = Raise e) ->
  render_questions radio 0 (good ++ bad :: rest) (answers ++ later)
  = (map (fun iq => radio (fst iq) (options_of (snd iq)))
         (combine (seq 0 (List.length good)) good) ++ later, Some e).
Proof.
  intros Hall Hlen Hbad.
  assert (G : forall quiz, Forall showable quiz ->
              forall pre mid,
                List.length mid = List.length quiz ->
                render_questions radio (List.length pre)
                  (quiz ++ bad :: rest) (pre ++ mid ++ later)
                = (pre
                   ++ map (fun iq => radio (fst iq) (options_of (snd iq)))
                          (combine (seq (List.length pre) (List.length quiz))
                                   quiz)
                   ++ later, Some e)).
  { clear Hall Hlen good answers.
    induction 1 as [|q quiz (text & options & Hq & Ho) _ IH];
      intros pre mid Hlen.
    - destruct mid; [|discriminate]. cbn [app render_questions].
      unfold render_question.
      destruct Hbad as [-> | [[text ->] ->]]; reflexivity.
    - destruct mid as [|m mid]; [discriminate|].
      cbn [app render_questions]. unfold render_question.
      rewrite Hq, Ho. rewrite list_assign_app.
      specialize (IH (pre ++ [radio (List.length pre) options]) mid).
      rewrite <- !app_assoc, length_app in IH. cbn [app List.length] in IH.
      rewrite Nat.add_1_r in IH. rewrite IH by (injection Hlen; auto).
      cbn [List.length seq combine map fst snd]. unfold options_of at 2.
      now rewrite Ho. }
  exact (G good Hall [] answers Hlen).
Qed.

Lemma render_questions_stops_at_unshowable_witness :
  render_questions (fun _ _ => "B) x") 0
                   ([mcq "Q1" ["A) w"; "B) x"]]
                    ++ JObj [("question", JStr "Q2")] :: [])
                   ([""] ++ [""])
  = (["B) x"] ++ [""], Some KeyError).
Proof.
  apply (render_questions_stops_at_unshowable (fun _ _ => "B) x")
           [mcq "Q1" ["A) w"; "B) x"]] (JObj [("question", JStr "Q2")])
           [] [""] [""] KeyError).
  - repeat constructor; eexists _, _; split; reflexivity.
  - reflexivity.
  - right. split; [eexists; reflexivity | reflexivity].
Defined.

(* ================================================================== *)
(** * The quiz page as a whole *)
(* ================================================================== *)

Lemma submit_quiz_session (ai_answers : string) (s : session_state) :
  fst (submit_quiz ai_answers s) = s.
Proof.
  unfold submit_quiz.
  destruct (extract_json ai_answers) as [[|a l]|]; try reflexivity.
  destruct (key_letters (a :: l)); [|reflexivity].
  destruct (quiz_data s); [|reflexivity].
  destruct (show_results _ _) as [shown [e|]]; reflexivity.
Qed.

Lemma generate_quiz_aligned (ai_response : string) (s : session_state) :
  aligned (fst (generate_quiz ai_response s)).
Proof.
  unfold generate_quiz, aligned.
  destruct (extract_json ai_response) as [[|q qs]|]; cbn; auto.
  now rewrite repeat_length.
Qed.

(** X14.  Every run of the quiz page keeps the answers aligned with the
    quiz: if the session had as many answers as questions before the run,
    or was new, it has as many after it, whatever the buttons, the
    widgets and the backend did; and the assignment of line 212 never
    raises [IndexError]. *)
Theorem quiz_page_keeps_aligned (quiz_text : string)
    (generate_clicked : bool) (generation_reply : option string)
    (radio : nat -> json -> string) (submit_clicked : bool)
    (grading_reply : option string) (session : option session_state) :
  (forall s, session = Some s -> aligned s) ->
  aligned (fst (quiz_page quiz_text generate_clicked generation_reply radio
                  submit_clicked grading_reply session))
  /\ render_error (snd (quiz_page quiz_text generate_clicked
                          generation_reply radio submit_clicked
                          grading_reply session))
     <> Some IndexError.
Proof.
  intros Hs. unfold quiz_page.
  set (s0 := match session with Some s => s | None => initial_session end).
  assert (H0 : aligned s0).
  { subst s0. destruct session as [s|]; [now apply Hs | exact I]. }
  destruct (generate_clicked
            && negb (String.eqb (PyStr.strip quiz_text) EmptyString)).
  - pose proof (generate_quiz_aligned (call_gemini_api generation_reply) s0)
      as H1.
    destruct (generate_quiz (call_gemini_api generation_reply) s0)
      as [s1 g]. cbn [fst] in H1. revert H1. generalize s1.
    clear. intros s1 H1. unfold aligned in H1.
    destruct (quiz_data s1) as [[|q qs]|] eqn:Eq;
      try (split; [unfold aligned; cbn; now rewrite Eq | discriminate]).
    pose proof (render_questions_length radio (q :: qs) 0 (user_answers s1))
      as Hl.
    pose proof (render_questions_in_range radio (q :: qs) 0 (user_answers s1))
      as Hr.
    destruct (render_questions radio 0 (q :: qs) (user_answers s1))
      as [answers raised]. cbn [fst snd] in Hl, Hr.
    assert (A2 : aligned {| quiz_data := Some (q :: qs);
                            user_answers := answers |})
      by (unfold aligned; cbn [quiz_data user_answers]; congruence).
    destruct raised as [e|].
    + split; [exact A2|]. cbn. apply Hr. rewrite H1. cbn. lia.
    + destruct submit_clicked.
      * pose proof (submit_quiz_session (call_gemini_api grading_reply)
                      {| quiz_data := Some (q :: qs);
                         user_answers := answers |}) as Hf.
        destruct (submit_quiz _ _) as [s3 g3]. cbn [fst] in Hf. subst s3.
        split; [exact A2 | discriminate].
      * split; [exact A2 | discriminate].
  - revert H0. generalize s0. clear. intros s1 H1. unfold aligned in H1.
    destruct (quiz_data s1) as [[|q qs]|] eqn:Eq;
      try (split; [unfold aligned; cbn; now rewrite Eq | discriminate]).
    pose proof (render_questions_length radio (q :: qs) 0 (user_answers s1))
      as Hl.
    pose proof (render_questions_in_range radio (q :: qs) 0 (user_answers s1))
      as Hr.
    destruct (render_questions radio 0 (q :: qs) (user_answers s1))
      as [answers raised]. cbn [fst snd] in Hl, Hr.
    assert (A2 : aligned {| quiz_data := Some (q :: qs);
                            user_answers := answers |})
      by (unfold aligned; cbn [quiz_data user_answers]; congruence).
    destruct raised as [e|].
    + split; [exact A2|]. cbn. apply Hr. rewrite H1. cbn. lia.
    + destruct submit_clicked.
      * pose proof (submit_quiz_session (call_gemini_api grading_reply)
                      {| quiz_data := Some (q :: qs);
                         user_answers := answers |}) as Hf.
        destruct (submit_quiz _ _) as [s3 g3]. cbn [fst] in Hf. subst s3.
        split; [exact A2 | discriminate].
      * split; [exact A2 | discriminate].
Qed.

Lemma quiz_page_keeps_aligned_witness :
  aligned (fst (quiz_page "notes" true
                  (Some (Json.text "[{'question': 'Q'}, 5]"))
                  (fun _ _ => "A) w") true None (Some session_two))).
Proof.
  apply (quiz_page_keeps_aligned "notes" true
           (Some (Json.text "[{'question': 'Q'}, 5]"))
           (fun _ _ => "A) w") true None (Some session_two)).
  intros s H. injection H as <-. reflexivity.
Defined.

Lemma render_questions_ok_showable radio (quiz : list json) :
  forall idx answers,
    snd (render_questions radio idx quiz answers) = None ->
    Forall showable quiz.
Proof.
  induction quiz as [|q quiz IH]; intros idx answers; [constructor|].
  cbn [render_questions]. unfold render_question.
  destruct (getitem q "question") as [text|] eqn:Hq; [|discriminate].
  destruct (getitem q "options") as [options|] eqn:Ho; [|discriminate].
  destruct (list_assign answers idx _) as [answers'|]; [|discriminate].
  intros H. constructor; [|eapply IH; exact H].
  exists text, options. auto.
Qed.

Lemma comprehension_first_value_raise (l : list json) (e : exn) :
  comprehension first_value l = Raise e ->
  e = AttributeError \/ e = IndexError.
Proof.
  induction l as [|a l IH]; cbn [comprehension]; [discriminate|].
  destruct (first_value a) as [v|e'] eqn:Ea.
  - destruct (comprehension first_value l); [discriminate|].
    intros H. injection H as <-. now apply IH.
  - intros H. injection H as <-.
    destruct a as [| | | | | |[|[k v] m]]; cbn in Ea;
      try discriminate; injection Ea as <-; auto.
Qed.

Lemma key_letters_raise (key : list json) (e : exn) :
  key_letters key = Raise e -> e = AttributeError \/ e = IndexError.
Proof.
  unfold key_letters, flatten_answers.
  destruct key as [|a l].
  - intros H. injection H as <-. auto.
  - destruct (is_dict a); [|discriminate].
    destruct (comprehension first_value (a :: l)) eqn:E; [discriminate|].
    intros H. injection H as <-.
    now apply comprehension_first_value_raise in E.
Qed.

Lemma showable_has_question (quiz : list json) :
  Forall showable quiz ->
  Forall (fun q => exists text, getitem q "question" = Ok text) quiz.
Proof.
  apply Forall_impl. intros q (text & options & H & _). eauto.
Qed.

(** X16.  Notes that are empty or made of whitespace only never start a
    generation: a click on the Generate button then does what no click
    does, the backend is not asked and the quiz on display stays. *)
Theorem quiz_page_blank_notes (quiz_text : string) (generate_clicked : bool)
    (generation_reply : option string) (radio : nat -> json -> string)
    (submit_clicked : bool) (grading_reply : option string)
    (session : option session_state) :
  visible quiz_text = EmptyString ->
  quiz_page quiz_text generate_clicked generation_reply radio submit_clicked
    grading_reply session
  = quiz_page quiz_text false generation_reply radio submit_clicked
      grading_reply session
  /\ generated (snd (quiz_page quiz_text generate_clicked generation_reply
                       radio submit_clicked grading_reply session)) = None.
Proof.
  intros H. apply visible_empty_strip in H.
  unfold quiz_page. rewrite H. cbn [String.eqb negb]. rewrite andb_false_r.
  split; [reflexivity|].
  destruct (quiz_data _) as [[|q qs]|]; try reflexivity.
  destruct (render_questions _ _ _ _) as [answers [e|]]; [reflexivity|].
  destruct submit_clicked; [|reflexivity].
  destruct (submit_quiz _ _); reflexivity.
Qed.

Lemma quiz_page_blank_notes_witness :
  quiz_page "   " true (Some "[1]") (fun _ _ => "A) w") false None
    (Some session_two)
  = quiz_page "   " false (Some "[1]") (fun _ _ => "A) w") false None
      (Some session_two).
Proof.
  apply (quiz_page_blank_notes "   " true (Some "[1]") (fun _ _ => "A) w")
           false None (Some session_two)).
  reflexivity.
Defined.

(** X17.  A generation that fails takes the quiz on display away.  When
    the backend raises, or its reply holds no list that can be read, the
    run reports the parse failure and leaves [quiz_data] at [None]: the
    questions are no longer shown and cannot be submitted, while the old
    answers stay in the session. *)
Theorem quiz_page_failed_generation (quiz_text : string)
    (generation_reply : option string) (radio : nat -> json -> string)
    (submit_clicked : bool) (grading_reply : option string)
    (session : option session_state) :
  visible quiz_text <> EmptyString ->
  generation_reply = None
  \/ (exists text, generation_reply = Some text /\ extract_json text = None) ->
  quiz_page quiz_text true generation_reply radio submit_clicked
    grading_reply session
  = ({| quiz_data := None;
        user_answers := user_answers match session with
                                     | Some s => s
                                     | None => initial_session
                                     end |},
     {| generated := Some QuizParseFailed; render_error := None;
        graded := None |}).
Proof.
  intros Hv Hr.
  assert (Hs : String.eqb (PyStr.strip quiz_text) EmptyString = false).
  { apply String.eqb_neq. intros E. apply Hv. now apply visible_empty_strip. }
  assert (Hx : extract_json (call_gemini_api generation_reply) = None).
  { destruct Hr as [-> | (text & -> & Hx)]; [reflexivity | exact Hx]. }
  unfold quiz_page, generate_quiz. rewrite Hs, Hx. reflexivity.
Qed.

Lemma quiz_page_failed_generation_witness :
  quiz_page "Cells divide." true None (fun _ _ => "A) w") true
    (Some "['A', 'B']") (Some session_two)
  = ({| quiz_data := None; user_answers := ["A) w"; "B) x"] |},
     {| generated := Some QuizParseFailed; render_error := None;
        graded := None |}).
Proof.
  apply (quiz_page_failed_generation "Cells divide." None
           (fun _ _ => "A) w") true (Some "['A', 'B']") (Some session_two)).
  - discriminate.
  - left. reflexivity.
Defined.

(* ================================================================== *)
(** * Documents *)
(* ================================================================== *)

Lemma split_newline_nonempty (text : string) : split_newline text <> [].
Proof.
  destruct text as [|c r]; cbn [split_newline]; [discriminate|].
  destruct (Ascii.eqb c newline); [discriminate|].
  destruct (split_newline r); discriminate.
Qed.

Lemma split_newline_app (a b : string) :
  split_newline (a ++ String newline b)
  = split_newline a ++ split_newline b.
Proof.
  induction a as [|c a IH]; cbn [append split_newline].
  - now rewrite Ascii.eqb_refl.
  - destruct (Ascii.eqb c newline); [now rewrite IH|].
    rewrite IH. pose proof (split_newline_nonempty a) as Hne.
    destruct (split_newline a); [contradiction | reflexivity].
Qed.

Lemma split_newline_one_line (line : string) :
  Py.contains newline line = false -> split_newline line = [line].
Proof.
  induction line as [|c line IH]; cbn [Py.contains split_newline];
    [reflexivity|].
  rewrite (Ascii.eqb_sym newline c).
  destruct (Ascii.eqb c newline); [discriminate|].
  intros H. now rewrite (IH H).
Qed.

Lemma split_newline_join (line : string) (lines : list string) :
  split_newline (Py.join (String newline EmptyString) (line :: lines))
  = concat (map split_newline (line :: lines)).
Proof.
  revert line. induction lines as [|l lines IH]; intros line.
  - cbn. now rewrite app_nil_r.
  - change (Py.join (String newline EmptyString) (line :: l :: lines))
      with (line ++ String newline
                      (Py.join (String newline EmptyString) (l :: lines)))%string.
    rewrite split_newline_app, IH. reflexivity.
Qed.

Lemma join_split_newline (text : string) :
  Py.join (String newline EmptyString) (split_newline text) = text.
Proof.
  induction text as [|c r IH]; [reflexivity|]. cbn [split_newline].
  pose proof (split_newline_nonempty r) as Hne.
  destruct (Ascii.eqb c newline) eqn:E.
  - apply Ascii.eqb_eq in E as ->.
    destruct (split_newline r) as [|l ls]; [contradiction|].
    change (Py.join (String newline EmptyString) (EmptyString :: l :: ls))
      with (String newline (Py.join (String newline EmptyString) (l :: ls))).
    now rewrite IH.
  - destruct (split_newline r) as [|l ls]; [contradiction|].
    rewrite <- IH. destruct ls; reflexivity.
Qed.

(** X19.  The cells of a document lose nothing of its text and keep the
    lines apart: joining the cells with line breaks gives the text back,
    and a text made by joining lines with line breaks is cut into the cells
    of its lines, which are the lines themselves when none of them has a
    line break of its own. *)
Theorem save_text_as_pdf_cells_lines :
  (forall text,
      Py.join (String newline EmptyString) (save_text_as_pdf_cells text)
      = text)
  /\ (forall line lines,
         save_text_as_pdf_cells
           (Py.join (String newline EmptyString) (line :: lines))
         = concat (map save_text_as_pdf_cells (line :: lines)))
  /\ (forall line lines,
         Forall (fun l => Py.contains newline l = false) (line :: lines) ->
         save_text_as_pdf_cells
           (Py.join (String newline EmptyString) (line :: lines))
         = line :: lines).
Proof.
  unfold save_text_as_pdf_cells. split; [exact join_split_newline|].
  split; [exact split_newline_join|].
  intros line lines H. rewrite split_newline_join.
  induction H as [|l ls Hl _ IH]; [reflexivity|].
  cbn [map concat]. now rewrite IH, (split_newline_one_line l Hl).
Qed.

Lemma save_text_as_pdf_cells_lines_witness :
  save_text_as_pdf_cells
    (Py.join (String newline EmptyString) ["User: hi"; "Assistant: hello"])
  = ["User: hi"; "Assistant: hello"].
Proof.
  apply (proj2 (proj2 save_text_as_pdf_cells_lines)).
  repeat constructor.
Defined.

Lemma read_pdf_from (pages : list (option string)) :
  forall text,
    fold_left (fun text page =>
                 (text ++ match page with
                          | Some t => t
                          | None => EmptyString
                          end)%string) pages text
    = (text ++ read_pdf pages)%string.
Proof.
  unfold read_pdf.
  assert (app_empty : forall s : string, (s ++ "")%string = s)
    by (induction s as [|c s IH]; cbn; [reflexivity | now rewrite IH]).
  assert (app_assoc' : forall a b c : string,
             ((a ++ b) ++ c)%string = (a ++ b ++ c)%string)
    by (induction a as [|x a IH]; intros b c; cbn;
        [reflexivity | now rewrite IH]).
  induction pages as [|p pages IH]; intros text; cbn [fold_left].
  - now rewrite app_empty.
  - rewrite IH, (IH (EmptyString ++ _)%string), app_assoc'. reflexivity.
Qed.

(** X20.  [read_pdf] returns the texts of the pages one after the other,
    in the order of the pages, with nothing between them; a page for which
    no text is extracted adds nothing, and the text of two runs of pages
    is the text of the first followed by the text of the second. *)
Theorem read_pdf_concatenates :
  read_pdf [] = EmptyString
  /\ (forall t pages, read_pdf (Some t :: pages) = (t ++ read_pdf pages)%string)
  /\ (forall pages, read_pdf (None :: pages) = read_pdf pages)
  /\ (forall pages1 pages2,
         read_pdf (pages1 ++ pages2)
         = (read_pdf pages1 ++ read_pdf pages2)%string).
Proof.
  split; [reflexivity|]. split; [|split].
  - intros t pages. unfold read_pdf at 1. cbn [fold_left].
    now rewrite read_pdf_from.
  - intros pages. unfold read_pdf at 1. cbn [fold_left].
    now rewrite read_pdf_from.
  - intros pages1 pages2. unfold read_pdf at 1.
    rewrite fold_left_app. fold (read_pdf pages1).
    now rewrite read_pdf_from.
Qed.

(* ================================================================== *)
(** * The chat page *)
(* ================================================================== *)

Lemma turns_app_turn (u a : message) :
  msg_role u = user -> msg_role a = assistant ->
  forall h,
    (turns h -> turns (h ++ [u; a]))
    /\ (forall x, turns (x :: h) -> turns (x :: h ++ [u; a])).
Proof.
  intros Hu Ha. induction h as [|y h [IH1 IH2]].
  - split; [intros _; cbn; auto | intros x []].
  - split.
    + intros H. cbn [app]. now apply IH2.
    + intros x (Hx & Hy & H). cbn [app turns]. auto.
Qed.

Lemma contains_app (c : ascii) (a b : string) :
  Py.contains c (a ++ b) = Py.contains c a || Py.contains c b.
Proof.
  induction a as [|x a IH]; cbn [append Py.contains]; [reflexivity|].
  now rewrite IH, orb_assoc.
Qed.

(** X21.  The chat history is a sequence of turns, a message of the user
    followed by a message of the assistant, and every run of the chat page
    keeps it so: a run with a question adds exactly one turn to the
    history, or to the empty history when Clear is clicked, also when the
    backend fails; a run without a question adds nothing. *)
Theorem chat_page_keeps_turns (clear_clicked : bool) (user_input : string)
    (backend : option string) (chat_history : option (list message)) :
  (forall h, chat_history = Some h -> turns h) ->
  let before :=
    if clear_clicked then []
    else match chat_history with
         | Some h => h
         | None => []
         end in
  let after := fst (chat_page clear_clicked user_input backend chat_history) in
  turns after
  /\ (user_input = EmptyString -> after = before)
  /\ (user_input <> EmptyString ->
      List.length after = List.length before + 2
      /\ firstn (List.length before) after = before).
Proof.
  intros Hh before after.
  assert (Hb : turns before).
  { subst before. destruct clear_clicked; [exact I|].
    destruct chat_history as [h|]; [now apply Hh | exact I]. }
  subst after. unfold chat_page. fold before.
  destruct user_input as [|c r]; cbn [fst].
  - split; [exact Hb|]. split; [reflexivity | congruence].
  - rewrite <- app_assoc. cbn [app]. split; [|split].
    + now apply turns_app_turn.
    + discriminate.
    + intros _. split.
      * rewrite length_app. reflexivity.
      * rewrite firstn_app, Nat.sub_diag, firstn_all. cbn [firstn].
        now rewrite app_nil_r.
Qed.

Lemma chat_page_keeps_turns_witness :
  turns (fst (chat_page false "And then?" None
                (Some [{| msg_role := user; content := "Hi" |};
                       {| msg_role := assistant; content := "Hello" |}]))).
Proof.
  apply (chat_page_keeps_turns false "And then?" None
           (Some [{| msg_role := user; content := "Hi" |};
                  {| msg_role := assistant; content := "Hello" |}])).
  intros h H. injection H as <-. cbn. auto.
Defined.

(** X22.  The document of a chat: each message gives the line "User: " or
    "Assistant: " followed by its content, and when no content has a line
    break the cells of the document offered after a turn are these lines,
    one for each message of the history, in order. *)
Theorem chat_page_document (clear_clicked : bool) (user_input : string)
    (backend : option string) (chat_history : option (list message))
    (cells : list string) :
  (forall m,
      transcript_line m
      = ((match msg_role m with
          | user => "User: "
          | assistant => "Assistant: "
          end) ++ content m)%string)
  /\ (snd (chat_page clear_clicked user_input backend chat_history)
      = Some cells ->
      Forall (fun m => Py.contains newline (content m) = false)
             (fst (chat_page clear_clicked user_input backend chat_history)) ->
      cells
      = map transcript_line
            (fst (chat_page clear_clicked user_input backend chat_history))).
Proof.
  split; [intros [[] c]; reflexivity|].
  unfold chat_page.
  set (before := if clear_clicked then []
                 else match chat_history with Some h => h | None => [] end).
  destruct user_input as [|c r]; [discriminate|]. cbn [fst snd].
  set (answered := (before ++ _) ++ _).
  intros H Hall. injection H as <-.
  unfold save_text_as_pdf_cells, transcript.
  assert (Hne : answered <> [])
    by (subst answered; intros E; apply app_eq_nil in E as [_ E];
        discriminate).
  assert (L : Forall (fun l => Py.contains newline l = false)
                     (map transcript_line answered)).
  { apply Forall_map. revert Hall. apply Forall_impl.
    intros [[] t] H; unfold transcript_line; cbn [msg_role content] in *;
      rewrite !contains_app, H; reflexivity. }
  destruct (map transcript_line answered) as [|l ls] eqn:E.
  - destruct answered; [contradiction | discriminate].
  - rewrite split_newline_join.
    clear E. induction L as [|x xs Hx _ IH]; [reflexivity|].
    cbn [map concat]. now rewrite IH, (split_newline_one_line x Hx).
Qed.

Lemma chat_page_document_witness :
  snd (chat_page true "What is DNA?" (Some "A molecule.") None)
  = Some ["User: What is DNA?"; "Assistant: A molecule."].
Proof.
  pose proof (proj2 (chat_page_document true "What is DNA?"
                       (Some "A molecule.") None
                       (save_text_as_pdf_cells
                          (transcript
                             [{| msg_role := user;
                                 content := "What is DNA?" |};
                              {| msg_role := assistant;
                                 content := "A molecule." |}])))
                eq_refl) as H.
  cbn [chat_page fst snd call_gemini_api app] in H |- *.
  rewrite H; [reflexivity|]. repeat constructor.
Defined.

(* ================================================================== *)
(** * The feedback after the score *)
(* ================================================================== *)

(** X23.  The threshold of the second message is seven tenths of the
    total, boundary included, and the rounding of binary64 arithmetic
    never moves it: for every quiz of up to 100 questions and every score,
    the message is the one that the exact test [7 * total <= 10 * score]
    gives.  So 7 out of 10 is "Great job", and a full score is always
    "Amazing". *)
Theorem feedback_of_exact (score total : nat) :
  total <= 100 -> score <= total ->
  feedback_of score total = exact_feedback score total.
Proof.
  intros Ht Hs.
  assert (H : feedback_exact_upto 100 = true) by (vm_compute; reflexivity).
  unfold feedback_exact_upto in H. rewrite forallb_forall in H.
  specialize (H total). rewrite forallb_forall in H.
  assert (E : feedback_eqb (feedback_of score total)
                           (exact_feedback score total) = true).
  { apply H; apply in_seq; lia. }
  destruct (feedback_of score total), (exact_feedback score total);
    try reflexivity; discriminate E.
Qed.

Lemma feedback_of_exact_witness : feedback_of 7 10 = GreatJob.
Proof.
  rewrite (feedback_of_exact 7 10) by lia. reflexivity.
Defined.

(* ================================================================== *)
(** * The answers as objects *)
(* ================================================================== *)

Lemma normalize_answer_of_strippable (a : json) :
  Objects.strippable a = true ->
  Objects.normalize_answer_of a = Ok (Objects.letter_of a).
Proof.
  destruct a; cbn [Objects.strippable Objects.normalize_answer_of
                   Objects.letter_of]; try reflexivity;
    intros H; apply negb_true_iff in H; now rewrite H.
Qed.

Lemma normalize_answer_of_unstrippable (a : json) :
  Objects.strippable a = false ->
  Objects.normalize_answer_of a = Raise AttributeError.
Proof.
  destruct a; cbn [Objects.strippable Objects.normalize_answer_of];
    try discriminate; intros H; apply negb_false_iff in H; now rewrite H.
Qed.

Lemma normalize_answers_strippable (answers : list json) :
  forallb Objects.strippable answers = true ->
  comprehension Objects.normalize_answer_of answers
  = Ok (map Objects.letter_of answers).
Proof.
  induction answers as [|a l IH]; cbn [forallb comprehension map];
    [reflexivity|].
  intros H. apply andb_prop in H as [Ha Hl].
  now rewrite (normalize_answer_of_strippable a Ha), (IH Hl).
Qed.

Lemma normalize_answers_unstrippable (answers : list json) :
  forallb Objects.strippable answers = false ->
  comprehension Objects.normalize_answer_of answers = Raise AttributeError.
Proof.
  induction answers as [|a l IH]; cbn [forallb comprehension];
    [discriminate|].
  destruct (Objects.strippable a) eqn:Ha.
  - cbn [andb]. intros Hl.
    now rewrite (normalize_answer_of_strippable a Ha), (IH Hl).
  - intros _. now rewrite (normalize_answer_of_unstrippable a Ha).
Qed.

Lemma normalize_answers_of_texts (answers : list string) :
  comprehension Objects.normalize_answer_of (map JStr answers)
  = Ok (map normalize_answer answers).
Proof.
  induction answers as [|a l IH]; [reflexivity|].
  cbn [map comprehension Objects.normalize_answer_of]. now rewrite IH.
Qed.

(** On a session whose answers are texts, grading on objects is the
    grading of [submit_quiz]. *)
Lemma submit_quiz_of_texts (ai_answers : string) (s : session_state) :
  Objects.submit_quiz ai_answers (of_texts s)
  = (of_texts s, snd (submit_quiz ai_answers s)).
Proof.
  unfold Objects.submit_quiz, submit_quiz.
  destruct (extract_json ai_answers) as [[|a key]|]; try reflexivity.
  destruct (key_letters (a :: key)) as [letters|e]; [|reflexivity].
  cbn [of_texts Objects.user_answers Objects.quiz_data].
  rewrite normalize_answers_of_texts.
  destruct (quiz_data s) as [quiz|]; [|reflexivity].
  destruct (show_results _ _) as [shown [e|]]; reflexivity.
Qed.

Lemma generate_quiz_of_texts (ai_response : string) (s : session_state) :
  Objects.generate_quiz ai_response (of_texts s)
  = (of_texts (fst (generate_quiz ai_response s)),
     snd (generate_quiz ai_response s)).
Proof.
  unfold Objects.generate_quiz, generate_quiz.
  destruct (extract_json ai_response) as [[|q qs]|]; try reflexivity.
  cbn [fst snd]. unfold of_texts. cbn [quiz_data user_answers].
  now rewrite map_repeat.
Qed.

Lemma list_assign_of_texts (l : list string) :
  forall idx v,
    Objects.list_assign (map JStr l) idx (JStr v)
    = option_map (map JStr) (list_assign l idx v).
Proof.
  induction l as [|x l IH]; intros [|idx] v; try reflexivity.
  cbn [map Objects.list_assign list_assign]. rewrite IH.
  destruct (list_assign l idx v); reflexivity.
Qed.

(** With widgets that return texts, the loop on objects is the loop of
    [render_questions]. *)
Lemma render_questions_of_texts (radio : nat -> json -> string)
    (quiz : list json) :
  forall idx answers,
    Objects.render_questions (fun i options => JStr (radio i options)) idx
      quiz (map JStr answers)
    = (map JStr (fst (render_questions radio idx quiz answers)),
       snd (render_questions radio idx quiz answers)).
Proof.
  induction quiz as [|q quiz IH]; intros idx answers; [reflexivity|].
  cbn [Objects.render_questions render_questions].
  unfold Objects.render_question, render_question.
  destruct (getitem q "question"); [|reflexivity].
  destruct (getitem q "options") as [options|]; [|reflexivity].
  rewrite list_assign_of_texts.
  destruct (list_assign answers idx (radio idx options)) as [answers'|];
    [apply IH | reflexivity].
Qed.

(** With widgets that return texts and a session of text answers, a run of
    the page on objects is the run of [quiz_page]. *)
Lemma quiz_page_of_texts (quiz_text : string) (generate_clicked : bool)
    (generation_reply : option string) (radio : nat -> json -> string)
    (submit_clicked : bool) (grading_reply : option string)
    (session : option session_state) :
  Objects.quiz_page quiz_text generate_clicked generation_reply
    (fun i options => JStr (radio i options)) submit_clicked grading_reply
    (option_map of_texts session)
  = (of_texts (fst (quiz_page quiz_text generate_clicked generation_reply
                      radio submit_clicked grading_reply session)),
     snd (quiz_page quiz_text generate_clicked generation_reply radio
            submit_clicked grading_reply session)).
Proof.
  unfold Objects.quiz_page, quiz_page.
  set (s0 := match session with Some s => s | None => initial_session end).
  replace (match option_map of_texts session with
           | Some s => s
           | None => Objects.initial_session
           end) with (of_texts s0)
    by (subst s0; destruct session; reflexivity).
  assert (R : forall (s1 : session_state) (gen : option generation),
             match Objects.quiz_data (of_texts s1) with
             | Some (q :: qs) =>
                 let (answers, raised) :=
                   Objects.render_questions
                     (fun i options => JStr (radio i options)) 0 (q :: qs)
                     (Objects.user_answers (of_texts s1)) in
                 let s2 := {| Objects.quiz_data :=
                                Objects.quiz_data (of_texts s1);
                              Objects.user_answers := answers |} in
                 match raised with
                 | Some e =>
                     (s2, {| generated := gen; render_error := Some e;
                             graded := None |})
                 | None =>
                     if submit_clicked
                     then let (s3, g) :=
                            Objects.submit_quiz
                              (call_gemini_api grading_reply) s2 in
                          (s3, {| generated := gen; render_error := None;
                                  graded := Some g |})
                     else (s2, {| generated := gen; render_error := None;
                                  graded := None |})
                 end
             | _ => (of_texts s1, {| generated := gen; render_error := None;
                                     graded := None |})
             end
             = (of_texts
                  (fst match quiz_data s1 with
                       | Some (q :: qs) =>
                           let (answers, raised) :=
                             render_questions radio 0 (q :: qs)
                               (user_answers s1) in
                           let s2 := {| quiz_data := quiz_data s1;
                                        user_answers := answers |} in
                           match raised with
                           | Some e =>
                               (s2, {| generated := gen;
                                       render_error := Some e;
                                       graded := None |})
                           | None =>
                               if submit_clicked
                               then let (s3, g) :=
                                      submit_quiz
                                        (call_gemini_api grading_reply) s2 in
                                    (s3, {| generated := gen;
                                            render_error := None;
                                            graded := Some g |})
                               else (s2, {| generated := gen;
                                            render_error := None;
                                            graded := None |})
                           end
                       | _ => (s1, {| generated := gen; render_error := None;
                                      graded := None |})
                       end),
                snd match quiz_data s1 with
                    | Some (q :: qs) =>
                        let (answers, raised) :=
                          render_questions radio 0 (q :: qs)
                            (user_answers s1) in
                        let s2 := {| quiz_data := quiz_data s1;
                                     user_answers := answers |} in
                        match raised with
                        | Some e =>
                            (s2, {| generated := gen;
                                    render_error := Some e;
                                    graded := None |})
                        | None =>
                            if submit_clicked
                            then let (s3, g) :=
                                   submit_quiz
                                     (call_gemini_api grading_reply) s2 in
                                 (s3, {| generated := gen;
                                         render_error := None;
                                         graded := Some g |})
                            else (s2, {| generated := gen;
                                         render_error := None;
                                         graded := None |})
                        end
                    | _ => (s1, {| generated := gen; render_error := None;
                                   graded := None |})
                    end)).
  { intros s1 gen. cbn [of_texts Objects.quiz_data Objects.user_answers].
    destruct (quiz_data s1) as [[|q qs]|] eqn:Eq; try reflexivity.
    rewrite render_questions_of_texts.
    destruct (render_questions radio 0 (q :: qs) (user_answers s1))
      as [answers [e|]]; cbn [fst snd]; [reflexivity|].
    destruct submit_clicked; [|reflexivity].
    pose proof (submit_quiz_of_texts (call_gemini_api grading_reply)
                  {| quiz_data := Some (q :: qs);
                     user_answers := answers |}) as Hs.
    unfold of_texts in Hs at 1. cbn [quiz_data user_answers] in Hs.
    rewrite Hs.
    pose proof (submit_quiz_session (call_gemini_api grading_reply)
                  {| quiz_data := Some (q :: qs);
                     user_answers := answers |}) as Hf.
    destruct (submit_quiz _ _) as [s3 g3]. cbn [fst snd] in *.
    subst s3. reflexivity. }
  destruct (generate_clicked
            && negb (String.eqb (PyStr.strip quiz_text) EmptyString)).
  - rewrite generate_quiz_of_texts.
    destruct (generate_quiz (call_gemini_api generation_reply) s0)
      as [s1 g]. cbn [fst snd]. apply R.
  - apply R.
Qed.

Lemma objects_submit_quiz_session (ai_answers : string)
    (s : Objects.session_state) :
  fst (Objects.submit_quiz ai_answers s) = s.
Proof.
  unfold Objects.submit_quiz.
  destruct (extract_json ai_answers) as [[|a l]|]; try reflexivity.
  destruct (key_letters (a :: l)); [|reflexivity].
  destruct (comprehension _ _); [|reflexivity].
  destruct (Objects.quiz_data s); [|reflexivity].
  destruct (show_results _ _) as [shown [e|]]; reflexivity.
Qed.

(** Grading with a key that is read and answers that [normalize_answer]
    accepts. *)
Lemma objects_submit_quiz_strippable (ai_answers : string)
    (s : Objects.session_state) (quiz key : list json)
    (letters : list string) :
  Objects.quiz_data s = Some quiz ->
  Forall (fun q => exists text, getitem q "question" = Ok text) quiz ->
  extract_json ai_answers = Some key ->
  key_letters key = Ok letters ->
  forallb Objects.strippable (Objects.user_answers s) = true ->
  exists shown,
    Objects.submit_quiz ai_answers s
    = (s, Graded shown
            (calculate_score (map Objects.letter_of (Objects.user_answers s))
                             letters)
            (List.length key))
    /\ map number shown
       = seq 1 (Nat.min (Nat.min (List.length (Objects.user_answers s))
                                 (List.length key))
                        (List.length quiz)).
Proof.
  intros Hq Hall Hx Hk Hs. unfold Objects.submit_quiz.
  rewrite Hx, Hk, (normalize_answers_strippable _ Hs), Hq.
  assert (Hlen : List.length letters = List.length key).
  { unfold key_letters in Hk.
    destruct (flatten_answers key) as [flat|] eqn:Hf; [|discriminate].
    injection Hk as <-. unfold normalize_key. rewrite length_map.
    now apply flatten_answers_length. }
  destruct key as [|a key].
  { unfold key_letters, flatten_answers in Hk. discriminate. }
  destruct (show_results_showable
              (combine (combine (map Objects.letter_of
                                     (Objects.user_answers s)) letters) quiz)
              (Forall_combine_r _ _ _ Hall) 0) as (shown & -> & Hn).
  exists shown. split; [now rewrite Hlen|].
  now rewrite Hn, !length_combine, length_map, Hlen.
Qed.

(** Grading with a key that is read and an answer that has no [strip]. *)
Lemma objects_submit_quiz_unstrippable (ai_answers : string)
    (s : Objects.session_state) (key : list json) (letters : list string) :
  extract_json ai_answers = Some key ->
  key_letters key = Ok letters ->
  forallb Objects.strippable (Objects.user_answers s) = false ->
  Objects.submit_quiz ai_answers s = (s, Crashed [] AttributeError).
Proof.
  intros Hx Hk Hs. unfold Objects.submit_quiz.
  rewrite Hx, Hk, (normalize_answers_unstrippable _ Hs).
  destruct key; [|reflexivity].
  unfold key_letters, flatten_answers in Hk. discriminate.
Qed.

(** C1, as the code has it.  Grading never changes the session.  When the
    extractor returns [None] or the empty list the step reports the parse
    failure of the answer key and produces no score, and these are the only
    cases in which it does.  The length of a key that is read is not
    compared with the number of questions: whatever the three lengths are,
    when the key can be flattened, the answers are texts or false objects
    and the questions have their text, the key is graded, with the score
    of the aligned letters out of the length of the key and one line for
    each position that the answers, the key and the quiz all have.  On a
    session of text answers this grading is the one of [submit_quiz]. *)
Theorem submit_quiz_parse_failure (ai_answers : string)
    (s : Objects.session_state) :
  fst (Objects.submit_quiz ai_answers s) = s
  /\ (extract_json ai_answers = None \/ extract_json ai_answers = Some [] ->
      Objects.submit_quiz ai_answers s = (s, AnswersParseFailed))
  /\ (snd (Objects.submit_quiz ai_answers s) = AnswersParseFailed ->
      extract_json ai_answers = None \/ extract_json ai_answers = Some [])
  /\ (forall quiz key flat,
         Objects.quiz_data s = Some quiz ->
         Forall (fun q => exists text, getitem q "question" = Ok text) quiz ->
         extract_json ai_answers = Some key ->
         flatten_answers key = Ok flat ->
         forallb Objects.strippable (Objects.user_answers s) = true ->
         exists shown,
           Objects.submit_quiz ai_answers s
           = (s, Graded shown
                   (calculate_score
                      (map Objects.letter_of (Objects.user_answers s))
                      (normalize_key flat))
                   (List.length key))
           /\ map number shown
              = seq 1 (Nat.min
                         (Nat.min (List.length (Objects.user_answers s))
                                  (List.length key))
                         (List.length quiz)))
  /\ (forall t : session_state,
         Objects.submit_quiz ai_answers (of_texts t)
         = (of_texts t, snd (submit_quiz ai_answers t))).
Proof.
  split; [apply objects_submit_quiz_session|]. split; [|split; [|split]];
    [| | |intros t; apply submit_quiz_of_texts].
  - unfold Objects.submit_quiz. intros [-> | ->]; reflexivity.
  - unfold Objects.submit_quiz.
    destruct (extract_json ai_answers) as [[|a l]|]; auto.
    destruct (key_letters (a :: l)); [|discriminate].
    destruct (comprehension _ _); [|discriminate].
    destruct (Objects.quiz_data s); [|discriminate].
    destruct (show_results _ _) as [shown [e|]]; discriminate.
  - intros quiz key flat Hq Hall Hx Hf Hs.
    apply (objects_submit_quiz_strippable ai_answers s quiz key
             (normalize_key flat) Hq Hall Hx); [|exact Hs].
    unfold key_letters. now rewrite Hf.
Qed.

Lemma submit_quiz_parse_failure_witness :
  (extract_json "Sorry, no brackets here" = None
   /\ Objects.submit_quiz "Sorry, no brackets here" (of_texts session_two)
      = (of_texts session_two, AnswersParseFailed))
  /\ exists shown,
       Objects.submit_quiz (Json.text "Key: ['b', 'B.', 'C']")
         (of_texts session_two)
       = (of_texts session_two, Graded shown 1 3)
       /\ map number shown = [1; 2].
Proof.
  assert (H : extract_json "Sorry, no brackets here" = None)
    by (vm_compute; reflexivity).
  assert (Hk : extract_json (Json.text "Key: ['b', 'B.', 'C']")
               = Some [JStr "b"; JStr "B."; JStr "C"])
    by (vm_compute; reflexivity).
  assert (Hall : Forall (fun q => exists text,
                             getitem q "question" = Ok text) two_questions)
    by (repeat constructor; eexists; reflexivity).
  split.
  - split; [exact H|].
    exact (proj1 (proj2 (submit_quiz_parse_failure _ (of_texts session_two)))
             (or_introl H)).
  - exact (proj1 (proj2 (proj2 (proj2 (submit_quiz_parse_failure
                                         (Json.text "Key: ['b', 'B.', 'C']")
                                         (of_texts session_two)))))
             two_questions [JStr "b"; JStr "B."; JStr "C"]
             [JStr "b"; JStr "B."; JStr "C"] eq_refl Hall Hk eq_refl eq_refl).
Defined.

(** C1, as stated, fails: a key of one letter for a quiz of two questions
    is graded, with a score. *)
Lemma submit_quiz_short_key_is_graded :
  extract_json (Json.text "['A']") = Some [JStr "A"]
  /\ flatten_answers [JStr "A"] = Ok [JStr "A"]
  /\ List.length [JStr "A"] <> List.length two_questions
  /\ submit_quiz (Json.text "['A']") session_two
     = (session_two,
        Graded [{| number := 1; question := "Q1"; outcome := Correct "A" |}]
               1 1)
  /\ Objects.submit_quiz (Json.text "['A']") (of_texts session_two)
     = (of_texts session_two,
        Graded [{| number := 1; question := "Q1"; outcome := Correct "A" |}]
               1 1).
Proof.
  split; [vm_compute; reflexivity|]. split; [reflexivity|].
  split; [discriminate|]. split; vm_compute; reflexivity.
Qed.

(** X11.  Grading, once the letters of the key are computed, on a quiz
    whose elements all have a [question].  If every answer in the session
    is a text or a false object ([None], the empty text) the step does not
    raise: it ends with the score of the letters of the answers against
    the letters of the key, out of the length of the key, and shows lines
    numbered 1, 2, ... for the positions that the answers, the key and the
    quiz all have.  If some answer is another object, a number or a list
    chosen among options that are not texts, the step raises
    [AttributeError] before any line is shown.  The session is unchanged
    in both cases. *)
Theorem submit_quiz_graded (ai_answers : string) (s : Objects.session_state)
    (quiz key : list json) (letters : list string) :
  Objects.quiz_data s = Some quiz ->
  Forall (fun q => exists text, getitem q "question" = Ok text) quiz ->
  extract_json ai_answers = Some key ->
  key_letters key = Ok letters ->
  (forallb Objects.strippable (Objects.user_answers s) = true ->
   exists shown,
     Objects.submit_quiz ai_answers s
     = (s, Graded shown
             (calculate_score (map Objects.letter_of (Objects.user_answers s))
                              letters)
             (List.length key))
     /\ map number shown
        = seq 1 (Nat.min (Nat.min (List.length (Objects.user_answers s))
                                  (List.length key))
                         (List.length quiz)))
  /\ (forallb Objects.strippable (Objects.user_answers s) = false ->
      Objects.submit_quiz ai_answers s = (s, Crashed [] AttributeError)).
Proof.
  intros Hq Hall Hx Hk. split.
  - now apply objects_submit_quiz_strippable.
  - now apply (objects_submit_quiz_unstrippable ai_answers s key letters).
Qed.

Lemma submit_quiz_graded_witness :
  Objects.submit_quiz (Json.text "['A', 'B']")
    {| Objects.quiz_data := Some two_questions;
       Objects.user_answers := [JStr "A) w"; JInt 2] |}
  = ({| Objects.quiz_data := Some two_questions;
        Objects.user_answers := [JStr "A) w"; JInt 2] |},
     Crashed [] AttributeError).
Proof.
  assert (Hall : Forall (fun q => exists text,
                             getitem q "question" = Ok text) two_questions)
    by (repeat constructor; eexists; reflexivity).
  assert (Hk : extract_json (Json.text "['A', 'B']")
               = Some [JStr "A"; JStr "B"]) by (vm_compute; reflexivity).
  exact (proj2 (submit_quiz_graded (Json.text "['A', 'B']")
                  {| Objects.quiz_data := Some two_questions;
                     Objects.user_answers := [JStr "A) w"; JInt 2] |}
                  two_questions [JStr "A"; JStr "B"] ["A"; "B"]
                  eq_refl Hall Hk eq_refl) eq_refl).
Defined.

(* ================================================================== *)
(** * The quiz page on objects *)
(* ================================================================== *)

Lemma objects_list_assign_app (pre : list json) (x v : json)
    (post : list json) :
  Objects.list_assign (pre ++ x :: post) (List.length pre) v
  = Some (pre ++ v :: post).
Proof.
  induction pre as [|p pre IH]; [reflexivity|].
  cbn [app List.length Objects.list_assign]. now rewrite IH.
Qed.

Lemma objects_render_questions_ok radio (quiz : list json) :
  forall idx answers,
    snd (Objects.render_questions radio idx quiz answers) = None ->
    Forall showable quiz.
Proof.
  induction quiz as [|q quiz IH]; intros idx answers; [constructor|].
  cbn [Objects.render_questions]. unfold Objects.render_question.
  destruct (getitem q "question") as [text|] eqn:Hq; [|discriminate].
  destruct (getitem q "options") as [options|] eqn:Ho; [|discriminate].
  destruct (Objects.list_assign answers idx _) as [answers'|];
    [|discriminate].
  intros H. constructor; [|eapply IH; exact H].
  exists text, options. auto.
Qed.

Lemma objects_render_questions_showable radio (quiz : list json) :
  Forall showable quiz ->
  forall pre mid post,
    List.length mid = List.length quiz ->
    Objects.render_questions radio (List.length pre) quiz
      (pre ++ mid ++ post)
    = (pre
       ++ map (fun iq => radio (fst iq) (options_of (snd iq)))
              (combine (seq (List.length pre) (List.length quiz)) quiz)
       ++ post, None).
Proof.
  induction 1 as [|q quiz (text & options & Hq & Ho) _ IH];
    intros pre mid post Hlen.
  - destruct mid; [reflexivity | discriminate].
  - destruct mid as [|m mid]; [discriminate|].
    cbn [Objects.render_questions]. unfold Objects.render_question.
    rewrite Hq, Ho. cbn [app]. rewrite objects_list_assign_app.
    specialize (IH (pre ++ [radio (List.length pre) options]) mid post).
    rewrite <- !app_assoc, length_app in IH. cbn [app List.length] in IH.
    rewrite Nat.add_1_r in IH. rewrite IH by (injection Hlen; auto).
    cbn [List.length seq combine map fst snd]. unfold options_of at 2.
    now rewrite Ho.
Qed.

Lemma objects_render_questions_from_start radio (quiz : list json)
    (answers : list json) :
  Forall showable quiz ->
  List.length answers = List.length quiz ->
  Objects.render_questions radio 0 quiz answers
  = (Objects.selections radio quiz, None).
Proof.
  intros Hall Hlen.
  pose proof (objects_render_questions_showable radio quiz Hall [] answers []
                Hlen) as H.
  cbn [app List.length] in H. now rewrite !app_nil_r in H.
Qed.

(** X15.  When a run of the page grades, the questions have all been shown,
    so the result lines cannot raise, and grading ends in one of four
    ways: with the parse failure, when no key or an empty key is read; with
    a score, and then every answer is a text or a false object; with the
    [AttributeError] or [IndexError] that the flattening of the key
    raised; or, the letters of the key being computed, with the
    [AttributeError] of an answer that is neither a text nor a false
    object.  In the last two cases no line has been shown. *)
Theorem quiz_page_grading_outcomes (quiz_text : string)
    (generate_clicked : bool) (generation_reply : option string)
    (radio : nat -> json -> json) (submit_clicked : bool)
    (grading_reply : option string)
    (session : option Objects.session_state) (g : grading) :
  let run := Objects.quiz_page quiz_text generate_clicked generation_reply
               radio submit_clicked grading_reply session in
  let key := extract_json (call_gemini_api grading_reply) in
  graded (snd run) = Some g ->
  (g = AnswersParseFailed /\ (key = None \/ key = Some []))
  \/ (exists shown score total,
         g = Graded shown score total
         /\ forallb Objects.strippable (Objects.user_answers (fst run))
            = true)
  \/ (exists items e,
         key = Some items /\ key_letters items = Raise e
         /\ g = Crashed [] e /\ (e = AttributeError \/ e = IndexError))
  \/ (exists items letters,
         key = Some items /\ key_letters items = Ok letters
         /\ forallb Objects.strippable (Objects.user_answers (fst run))
            = false
         /\ g = Crashed [] AttributeError).
Proof.
  cbv zeta. unfold Objects.quiz_page.
  destruct (if generate_clicked
               && negb (String.eqb (PyStr.strip quiz_text) EmptyString)
            then let (s', g0) :=
                   Objects.generate_quiz (call_gemini_api generation_reply)
                     match session with
                     | Some s => s
                     | None => Objects.initial_session
                     end in (s', Some g0)
            else (match session with
                  | Some s => s
                  | None => Objects.initial_session
                  end, None)) as [s1 gen].
  destruct (Objects.quiz_data s1) as [[|q qs]|] eqn:Eq; try discriminate.
  pose proof (objects_render_questions_ok radio (q :: qs) 0
                (Objects.user_answers s1)) as Hshow.
  destruct (Objects.render_questions radio 0 (q :: qs)
              (Objects.user_answers s1)) as [answers [e|]]; [discriminate|].
  specialize (Hshow eq_refl). apply showable_has_question in Hshow.
  destruct submit_clicked; [|discriminate].
  set (s2 := {| Objects.quiz_data := Some (q :: qs);
                Objects.user_answers := answers |}).
  pose proof (objects_submit_quiz_session (call_gemini_api grading_reply) s2)
    as Hfst.
  destruct (extract_json (call_gemini_api grading_reply)) as [[|a items]|]
    eqn:Hx.
  - unfold Objects.submit_quiz. rewrite Hx. cbn [fst snd graded].
    intros H. injection H as <-. left. auto.
  - destruct (key_letters (a :: items)) as [letters|e] eqn:Hk.
    + destruct (forallb Objects.strippable answers) eqn:Hs.
      * destruct (objects_submit_quiz_strippable
                    (call_gemini_api grading_reply) s2 (q :: qs) (a :: items)
                    letters eq_refl Hshow Hx Hk Hs) as (shown & -> & _).
        cbn [fst snd graded Objects.user_answers]. intros H.
        injection H as <-. right. left. eauto.
      * rewrite (objects_submit_quiz_unstrippable
                   (call_gemini_api grading_reply) s2 (a :: items) letters
                   Hx Hk Hs).
        cbn [fst snd graded Objects.user_answers]. intros H.
        injection H as <-. right. right. right.
        exists (a :: items), letters. auto.
    + unfold Objects.submit_quiz. rewrite Hx, Hk. cbn [fst snd graded].
      intros H. injection H as <-. right. right. left.
      exists (a :: items), e. repeat split; auto.
      now apply key_letters_raise in Hk.
  - unfold Objects.submit_quiz. rewrite Hx. cbn [fst snd graded].
    intros H. injection H as <-. left. auto.
Qed.

Lemma quiz_page_grading_outcomes_witness :
  graded (snd (Objects.quiz_page "" false None
                 (fun _ options => match options with
                                   | JArr (first :: _) => first
                                   | _ => JNull
                                   end)
                 true (Some (Json.text "['A']"))
                 (Some {| Objects.quiz_data :=
                            Some [JObj [("question", JStr "Q");
                                        ("options", JArr [JInt 1; JInt 2])]];
                          Objects.user_answers := [JStr ""] |})))
  = Some (Crashed [] AttributeError)
  /\ exists items letters,
       extract_json (Json.text "['A']") = Some items
       /\ key_letters items = Ok letters.
Proof.
  assert (H : graded (snd (Objects.quiz_page "" false None
                 (fun _ options => match options with
                                   | JArr (first :: _) => first
                                   | _ => JNull
                                   end)
                 true (Some (Json.text "['A']"))
                 (Some {| Objects.quiz_data :=
                            Some [JObj [("question", JStr "Q");
                                        ("options", JArr [JInt 1; JInt 2])]];
                          Objects.user_answers := [JStr ""] |})))
              = Some (Crashed [] AttributeError))
    by (vm_compute; reflexivity).
  split; [exact H|].
  destruct (quiz_page_grading_outcomes _ _ _ _ _ _ _ _ H)
    as [[E _] | [(shown & score & total & E & _)
                | [(items & e & Hx & Hk & E & _)
                  | (items & letters & Hx & Hk & _)]]].
  - discriminate E.
  - discriminate E.
  - exfalso. cbn [call_gemini_api] in Hx.
    assert (Hx' : extract_json (Json.text "['A']") = Some [JStr "A"])
      by (vm_compute; reflexivity).
    rewrite Hx' in Hx. injection Hx as <-. discriminate Hk.
  - exists items, letters. auto.
Defined.

(** X18.  From the notes to the score, in two runs of the page.  In the
    first run the Generate button is clicked and the reply holds a
    non-empty list of questions that can be shown: the list is committed
    and the answers are the objects the widgets return.  In the second run
    the Submit button is clicked and the reply holds a key that can be
    flattened, and the session stays as it was.  If the selected objects
    are texts or false objects, the result is the score of their letters
    against the letters of the key, out of the length of the key, with one
    line for each position that the quiz and the key both have.  If one of
    them is another object, as when the options of the reply are numbers,
    the run ends with [AttributeError] and no score. *)
Theorem quiz_page_generate_then_submit (quiz_text reply key_text : string)
    (radio : nat -> json -> json) (quiz key flat : list json)
    (prior : option Objects.session_state) :
  visible quiz_text <> EmptyString ->
  extract_json reply = Some quiz ->
  quiz <> [] ->
  Forall showable quiz ->
  extract_json key_text = Some key ->
  flatten_answers key = Ok flat ->
  let chosen := Objects.selections radio quiz in
  let ready := {| Objects.quiz_data := Some quiz;
                  Objects.user_answers := chosen |} in
  Objects.quiz_page quiz_text true (Some reply) radio false None prior
  = (ready, {| generated := Some QuizCommitted; render_error := None;
               graded := None |})
  /\ (forallb Objects.strippable chosen = true ->
      exists shown,
        Objects.quiz_page quiz_text false None radio true (Some key_text)
          (Some ready)
        = (ready,
           {| generated := None; render_error := None;
              graded :=
                Some (Graded shown
                        (calculate_score (map Objects.letter_of chosen)
                                         (normalize_key flat))
                        (List.length key)) |})
        /\ map number shown
           = seq 1 (Nat.min (List.length quiz) (List.length key)))
  /\ (forallb Objects.strippable chosen = false ->
      Objects.quiz_page quiz_text false None radio true (Some key_text)
        (Some ready)
      = (ready, {| generated := None; render_error := None;
                   graded := Some (Crashed [] AttributeError) |})).
Proof.
  intros Hv Hx Hne Hall Hk Hf chosen ready.
  assert (Hs : String.eqb (PyStr.strip quiz_text) EmptyString = false).
  { apply String.eqb_neq. intros E. apply Hv. now apply visible_empty_strip. }
  assert (Hsel : List.length chosen = List.length quiz).
  { subst chosen. unfold Objects.selections.
    rewrite length_map, length_combine, length_seq. apply Nat.min_id. }
  assert (Hkl : key_letters key = Ok (normalize_key flat))
    by (unfold key_letters; now rewrite Hf).
  destruct quiz as [|q qs]; [contradiction|].
  assert (Run2 : forall g,
             Objects.submit_quiz key_text ready = (ready, g) ->
             Objects.quiz_page quiz_text false None radio true
               (Some key_text) (Some ready)
             = (ready, {| generated := None; render_error := None;
                          graded := Some g |})).
  { intros g Hg. unfold Objects.quiz_page. cbn [andb].
    subst ready. cbn [Objects.quiz_data Objects.user_answers].
    rewrite (objects_render_questions_from_start radio (q :: qs) chosen
               Hall Hsel).
    fold chosen. cbn [call_gemini_api]. now rewrite Hg. }
  split; [|split].
  - unfold Objects.quiz_page, Objects.generate_quiz.
    cbn [call_gemini_api]. rewrite Hs, Hx.
    cbn [andb negb Objects.quiz_data Objects.user_answers].
    rewrite (objects_render_questions_from_start radio (q :: qs)
               (repeat (JStr EmptyString) (List.length (q :: qs))) Hall)
      by apply repeat_length.
    reflexivity.
  - intros Hst.
    destruct (objects_submit_quiz_strippable key_text ready (q :: qs) key
                (normalize_key flat) eq_refl
                (showable_has_question _ Hall) Hk Hkl Hst)
      as (shown & Hg & Hn).
    exists shown. split; [exact (Run2 _ Hg)|].
    rewrite Hn. subst ready. cbn [Objects.user_answers]. rewrite Hsel.
    f_equal. lia.
  - intros Hst. apply Run2.
    exact (objects_submit_quiz_unstrippable key_text ready key
             (normalize_key flat) Hk Hkl Hst).
Qed.

Lemma quiz_page_generate_then_submit_witness :
  Objects.quiz_page "Cells divide." false None
    (fun _ options => match options with
                      | JArr (first :: _) => first
                      | _ => JNull
                      end)
    true (Some (Json.text "['A']"))
    (Some {| Objects.quiz_data :=
               Some [JObj [("question", JStr "Q");
                           ("options", JArr [JInt 1; JInt 2; JInt 3;
                                             JInt 4])]];
             Objects.user_answers := [JInt 1] |})
  = ({| Objects.quiz_data :=
          Some [JObj [("question", JStr "Q");
                      ("options", JArr [JInt 1; JInt 2; JInt 3; JInt 4])]];
        Objects.user_answers := [JInt 1] |},
     {| generated := None; render_error := None;
        graded := Some (Crashed [] AttributeError) |}).
Proof.
  assert (Hq : extract_json
                 (Json.text "[{'question': 'Q', 'options': [1, 2, 3, 4]}]")
               = Some [JObj [("question", JStr "Q");
                             ("options", JArr [JInt 1; JInt 2; JInt 3;
                                               JInt 4])]])
    by (vm_compute; reflexivity).
  assert (Hk : extract_json (Json.text "['A']") = Some [JStr "A"])
    by (vm_compute; reflexivity).
  assert (Hall : Forall showable
                   [JObj [("question", JStr "Q");
                          ("options", JArr [JInt 1; JInt 2; JInt 3;
                                            JInt 4])]])
    by (repeat constructor; eexists _, _; split; reflexivity).
  refine (proj2 (proj2 (quiz_page_generate_then_submit "Cells divide." _
                          (Json.text "['A']")
                          (fun _ options => match options with
                                            | JArr (first :: _) => first
                                            | _ => JNull
                                            end)
                          _ [JStr "A"] [JStr "A"] None
                          _ Hq _ Hall Hk eq_refl)) eq_refl); discriminate.
Defined.
